(** * poly_arb_cli: a shallow embedding of the signal-derivation core

    Python floats of the order-book, scanner, stream-state and rebalance code are
    modelled as exact rationals [Q]; the probability code (which calls [math.log],
    [math.sqrt], [math.erf] and [**]) is modelled over the reals [R].  IEEE rounding
    is not modelled, except for the quotient [spot / strike] of [_implied_prob_above]
    rounding to [0.0] before [math.log] ([HedgeProb.float_div]).  Python exceptions are kept as an explicit error result. *)

From Stdlib Require Import ZArith QArith Qabs Qminmax Lia Lqa Sorted Permutation.
From Stdlib Require Import String List Reals.
From Stdlib Require Lra.
From stdpp Require Import base gmap strings.
Import ListNotations.

Open Scope Q_scope.

(** ** Python exceptions and a small error monad *)

Inductive exn :=
| TypeError
| NameError
| ValueError
| IndexError
| OverflowError
| ZeroDivisionError.

Inductive result (A : Type) :=
| Ok (a : A)
| Raise (e : exn).
Arguments Ok {A} a.
Arguments Raise {A} e.

Definition bind {A B} (m : result A) (k : A -> result B) : result B :=
  match m with Ok a => k a | Raise e => Raise e end.

Notation "x <- m ;; k" := (bind m (fun x => k))
  (at level 100, m at next level, right associativity).

(** ** Data model (types.py) *)

Inductive Platform := POLYMARKET | OPINION.

Record Market := mkMarket {
  platform : Platform;
  market_id : string;
  title : string;
  condition_id : option string;
  yes_token_id : option string;
  no_token_id : option string
}.

Record OrderBookLevel := mkLevel { price : Q; size : Q }.

Record OrderBook := mkBook { bids : list OrderBookLevel; asks : list OrderBookLevel }.

(** [OrderBook.best_bid] / [OrderBook.best_ask]: the level at index 0. *)
Definition best_bid (b : OrderBook) : option OrderBookLevel := head (bids b).
Definition best_ask (b : OrderBook) : option OrderBookLevel := head (asks b).

Inductive Side := Buy | Sell.

(** Python truthiness of an optional id: [None] and [""] are false. *)
Definition truthy_id (o : option string) : bool :=
  match o with Some s => negb (String.eqb s "") | None => false end.

(** Python comparisons on floats. *)
Definition py_lt (x y : Q) : bool := negb (Qle_bool y x).
Definition py_le (x y : Q) : bool := Qle_bool x y.
(** [min(a, b)] keeps [a] unless [b < a]. *)
Definition py_min (a b : Q) : Q := if py_lt b a then b else a.

(** ** services/pricing.py *)
Module Pricing.

Record FillComputation := mkFill {
  average_price : Q;
  filled_size : Q;
  notional : Q
}.

(** The loop state of [compute_fill]: remaining, notional, filled. *)
Fixpoint walk (levels : list OrderBookLevel) (remaining notional filled : Q)
  : Q * Q :=
  match levels with
  | [] => (notional, filled)
  | level :: rest =>
      let take_size := py_min (size level) remaining in
      let notional' := notional + take_size * price level in
      let filled' := filled + take_size in
      let remaining' := remaining - take_size in
      if py_le remaining' 0 then (notional', filled')
      else walk rest remaining' notional' filled'
  end.

Definition side_levels (ob : OrderBook) (side : Side) : list OrderBookLevel :=
  match side with Buy => asks ob | Sell => bids ob end.

Definition compute_fill (ob : OrderBook) (side : Side) (sz : Q) : FillComputation :=
  let '(notional, filled) := walk (side_levels ob side) sz 0 0 in
  if Qeq_bool filled 0 then mkFill 1 0 0
  else mkFill (notional / filled) filled notional.

Definition best_price (ob : OrderBook) (side : Side) : Q :=
  let level := match side with Buy => best_ask ob | Sell => best_bid ob end in
  match level with Some l => price l | None => 1 end.

Definition clamp_slippage (entry_price avg_price : Q) (max_slippage_bps : Z) : bool :=
  if Qeq_bool entry_price 0 then false
  else
    let diff_bps := Qabs (avg_price - entry_price) / entry_price * 10000 in
    py_le diff_bps (inject_Z max_slippage_bps).

End Pricing.

(** ** services/matcher.py *)
Module Matcher.

Record MatchedMarket := mkMatched {
  polymarket : Market;
  opinion : Market;
  similarity : Q
}.

Section Match.
(** [str.lower] and [difflib.SequenceMatcher(a=.., b=..).ratio()], both from the
    Python standard library; the matcher is proved correct for any of them. *)
Variable lower : string -> string.
Variable seq_ratio : string -> string -> Q.

Definition ratio (pm op : Market) : Q :=
  seq_ratio (lower (title pm)) (lower (title op)).

(** Does a candidate ratio replace the current [best_match]? *)
Definition beats (best : option (Q * Market)) (r : Q) : bool :=
  match best with None => true | Some (b, _) => py_lt b r end.

(** The inner loop over the opinion markets for one polymarket market. *)
Fixpoint best_for (pm : Market) (used : gset string) (threshold : Q)
    (ops : list Market) (best : option (Q * Market)) : option (Q * Market) :=
  match ops with
  | [] => best
  | op :: rest =>
      if bool_decide (market_id op ∈ used) then best_for pm used threshold rest best
      else
        let r := ratio pm op in
        let best' := if py_le threshold r && beats best r then Some (r, op) else best in
        best_for pm used threshold rest best'
  end.

(** The outer loop, threading [used_opinion_ids]. *)
Fixpoint match_loop (pms ops : list Market) (threshold : Q) (used : gset string)
    : list MatchedMarket :=
  match pms with
  | [] => []
  | pm :: rest =>
      match best_for pm used threshold ops None with
      | Some (sim, op) =>
          mkMatched pm op sim :: match_loop rest ops threshold ({[market_id op]} ∪ used)
      | None => match_loop rest ops threshold used
      end
  end.

Definition match_markets (pms ops : list Market) (threshold : Q) : list MatchedMarket :=
  match_loop pms ops threshold ∅.

(** The greedy matching as the spec describes it: venue-A markets in order, each
    paired with the first not-yet-used venue-B market of maximal similarity when that
    maximum reaches the threshold. *)
Inductive greedy_spec (threshold : Q) (ops : list Market)
    : list Market -> gset string -> list MatchedMarket -> Prop :=
| gs_nil used : greedy_spec threshold ops [] used []
| gs_skip pm rest used out :
    (forall op, In op ops -> market_id op ∉ used -> ratio pm op < threshold) ->
    greedy_spec threshold ops rest used out ->
    greedy_spec threshold ops (pm :: rest) used out
| gs_pair pm rest used out pre op post :
    ops = pre ++ op :: post ->
    market_id op ∉ used ->
    threshold <= ratio pm op ->
    (forall op', In op' ops -> market_id op' ∉ used -> ratio pm op' <= ratio pm op) ->
    (forall op', In op' pre -> market_id op' ∉ used -> ratio pm op' < ratio pm op) ->
    greedy_spec threshold ops rest ({[market_id op]} ∪ used) out ->
    greedy_spec threshold ops (pm :: rest) used (mkMatched pm op (ratio pm op) :: out).

End Match.
End Matcher.

(** ** connectors/polymarket_ws.py: the stream state *)

(** [TradeEvent] (types.py), in its own name space since its fields share names
    with [Market] and [OrderBookLevel]. *)
Module TE.
Record TradeEvent := mkTradeEvent {
  condition_id : string;
  token_id : string;
  side : string;
  size : Q;
  price : Q;
  notional : Q;
  timestamp : Z;
  title : string;
  outcome : option string
}.
End TE.

Module Stream.

(** [collections.deque] with a [maxlen]: appending to a full deque drops the
    oldest element. *)
Record deque := mkDeque { items : list TE.TradeEvent; maxlen : nat }.

Definition lastn {A} (n : nat) (l : list A) : list A := skipn (length l - n) l.

Definition deque_append (d : deque) (x : TE.TradeEvent) : deque :=
  mkDeque (lastn (maxlen d) (items d ++ [x])) (maxlen d).

(** [deque(buf, maxlen=m)]. *)
Definition deque_copy (d : deque) (m : nat) : deque := mkDeque (lastn m (items d)) m.

Record PolymarketStreamState := mkStreamState {
  orderbooks : gmap string OrderBook;
  trades_by_condition : gmap string deque;
  max_trades_per_market : nat
}.

(** [defaultdict(lambda: deque(maxlen=200))]. *)
Definition default_deque : deque := mkDeque [] 200.

Inductive OutcomeSide := YES | NO.

Definition get_orderbook_for_market (st : PolymarketStreamState) (m : Market)
    (side : OutcomeSide) : option OrderBook :=
  let token_id := match side with YES => yes_token_id m | NO => no_token_id m end in
  match token_id with
  | Some t => if String.eqb t "" then None else orderbooks st !! t
  | None => None
  end.

Definition get_last_trades (st : PolymarketStreamState) (cid : string) (limit : nat)
    : list TE.TradeEvent :=
  match trades_by_condition st !! cid with
  | None => []
  | Some buf => match items buf with [] => [] | l => lastn limit l end
  end.

(** *** [append_last_trade] *)

(** A scalar JSON value of a feed message, as [json.loads] produces it. *)
Inductive jval :=
| JNone
| JBool (b : bool)
| JInt (z : Z)
| JFloat (q : Q)
| JStr (s : string).

(** A feed message: a dict, as an association list (first key wins). *)
Definition message := list (string * jval).

(** [data.get(key)]. *)
Definition dict_get (d : message) (k : string) : jval :=
  match find (fun kv => String.eqb (fst kv) k) d with Some (_, v) => v | None => JNone end.

Definition py_truthy (v : jval) : bool :=
  match v with
  | JNone => false
  | JBool b => b
  | JInt z => negb (Z.eqb z 0)
  | JFloat q => negb (Qeq_bool q 0)
  | JStr s => negb (String.eqb s "")
  end.

(** [v or d]. *)
Definition py_or (v d : jval) : jval := if py_truthy v then v else d.

(** [int(q)] on a float truncates toward zero. *)
Definition q_trunc (q : Q) : Z := Z.quot (Qnum q) (Zpos (Qden q)).

Section Conversions.
(** [float(s)] and [int(s)] on strings ([None]: they raise ValueError), and [str(v)]
    on non-string scalars: Python built-ins, kept abstract. *)
Variable str_to_float : string -> option Q.
Variable str_to_int : string -> option Z.
Variable scalar_repr : jval -> string.

Definition py_float (v : jval) : result Q :=
  match v with
  | JNone => Raise TypeError
  | JBool b => Ok (if b then 1 else 0)
  | JInt z => Ok (inject_Z z)
  | JFloat q => Ok q
  | JStr s => match str_to_float s with Some q => Ok q | None => Raise ValueError end
  end.

Definition py_int (v : jval) : result Z :=
  match v with
  | JNone => Raise TypeError
  | JBool b => Ok (if b then 1 else 0)%Z
  | JInt z => Ok z
  | JFloat q => Ok (q_trunc q)
  | JStr s => match str_to_int s with Some z => Ok z | None => Raise ValueError end
  end.

Definition py_str (v : jval) : string :=
  match v with JStr s => s | _ => scalar_repr v end.

(** The [try] block of [append_last_trade]: the trade it builds, or the exception
    that makes the method return early.  [int(int(ts_raw) / 1000)] truncates the
    millisecond count toward zero. *)
Definition parse_trade (data : message) : result TE.TradeEvent :=
  let asset_id := py_str (py_or (dict_get data "asset_id") (JStr "")) in
  let condition_id := py_str (py_or (dict_get data "market") (JStr "")) in
  let side := py_str (py_or (dict_get data "side") (JStr "")) in
  size <- py_float (py_or (dict_get data "size") (JFloat 0)) ;;
  price <- py_float (py_or (dict_get data "price") (JFloat 0)) ;;
  ts <- (match dict_get data "timestamp" with
         | JNone => Ok 0%Z
         | ts_raw => i <- py_int ts_raw ;; Ok (Z.quot i 1000)
         end) ;;
  Ok (TE.mkTradeEvent condition_id asset_id side size price (size * price) ts
        condition_id None).

Definition append_last_trade (st : PolymarketStreamState) (data : message)
    : PolymarketStreamState :=
  match parse_trade data with
  | Raise _ => st
  | Ok trade =>
      let cid := TE.condition_id trade in
      let buf := match trades_by_condition st !! cid with
                 | Some b => b | None => default_deque end in
      let buf := if Nat.eqb (maxlen buf) (max_trades_per_market st) then buf
                 else deque_copy buf (max_trades_per_market st) in
      mkStreamState (orderbooks st)
        (<[cid := deque_append buf trade]> (trades_by_condition st))
        (max_trades_per_market st)
  end.
End Conversions.

(** Concrete instances of the built-ins above: [float(s)] / [int(s)] for plain
    decimal strings (optional sign, digits, at most one point; other spellings are
    rejected), and [str] of ints and bools as Python prints them (floats as
    numerator/denominator). *)
Fixpoint digits_value (l : list Ascii.ascii) (acc : Z) : option Z :=
  match l with
  | [] => Some acc
  | c :: rest =>
      let n := Ascii.nat_of_ascii c in
      if (48 <=? n)%nat && (n <=? 57)%nat
      then digits_value rest (acc * 10 + Z.of_nat (n - 48))%Z else None
  end.

Definition split_sign (l : list Ascii.ascii) : Z * list Ascii.ascii :=
  match l with
  | c :: rest =>
      if Ascii.eqb c (Ascii.ascii_of_nat 45) then ((-1)%Z, rest)
      else if Ascii.eqb c (Ascii.ascii_of_nat 43) then (1%Z, rest)
      else (1%Z, l)
  | [] => (1%Z, l)
  end.

Fixpoint split_at_point (l : list Ascii.ascii) : list Ascii.ascii * option (list Ascii.ascii) :=
  match l with
  | [] => ([], None)
  | c :: r =>
      if Ascii.eqb c (Ascii.ascii_of_nat 46) then ([], Some r)
      else let '(b, a) := split_at_point r in (c :: b, a)
  end.

Definition decimal_int (s : string) : option Z :=
  let '(sg, l) := split_sign (list_ascii_of_string s) in
  match l with [] => None | _ => option_map (Z.mul sg) (digits_value l 0) end.

Definition decimal_float (s : string) : option Q :=
  let '(sg, l) := split_sign (list_ascii_of_string s) in
  match split_at_point l with
  | ([], None) | ([], Some []) => None
  | (b, None) => option_map (fun z => inject_Z (sg * z)) (digits_value b 0)
  | (b, Some a) =>
      match digits_value b 0, digits_value a 0 with
      | Some x, Some y =>
          let k := (10 ^ Z.of_nat (length a))%Z in
          Some (inject_Z (sg * (x * k + y)) / inject_Z k)
      | _, _ => None
      end
  end.

Fixpoint pos_decimal (fuel : nat) (z : Z) (acc : string) : string :=
  match fuel with
  | O => acc
  | S f =>
      let acc' := String (Ascii.ascii_of_nat (48 + Z.to_nat (z mod 10))) acc in
      if (z <? 10)%Z then acc' else pos_decimal f (z / 10)%Z acc'
  end.

Definition z_decimal (z : Z) : string :=
  if (z <? 0)%Z then String (Ascii.ascii_of_nat 45) (pos_decimal 64 (- z) "")
  else pos_decimal 64 z "".

Definition repr_scalar (v : jval) : string :=
  match v with
  | JNone => "None"
  | JBool true => "True"
  | JBool false => "False"
  | JInt z => z_decimal z
  | JFloat q => z_decimal (Qnum q) ++ "/" ++ z_decimal (Zpos (Qden q))
  | JStr s => s
  end.

End Stream.

(** ** services/scanner.py *)
Module Scanner.
Import Pricing Matcher Stream.

Record Settings := mkSettings {
  default_quote_size : Q;
  min_trade_size : Q;
  min_profit_percent : Q;
  max_slippage_bps : Z
}.

(** The two venue clients as the scan uses them: market listings, order books by
    market and outcome, and the shared settings. *)
Record Clients := mkClients {
  pm_list_active_markets : nat -> list Market;
  op_list_active_markets : nat -> list Market;
  pm_get_orderbook : Market -> OutcomeSide -> OrderBook;
  op_get_orderbook : Market -> OutcomeSide -> OrderBook;
  settings : Settings
}.

Inductive Route := PM_NO_OP_YES | PM_YES_OP_NO.

(** [ArbOpportunity] without its display-only [price_breakdown] string. *)
Record ArbOpportunity := mkArb {
  pair : MatchedMarket;
  route : Route;
  cost : Q;
  profit_percent : Q;
  opp_size : Q;
  max_size : Q
}.

Definition empty_book : OrderBook := mkBook [] [].

Definition book_is_empty (b : OrderBook) : bool :=
  match bids b, asks b with [], [] => true | _, _ => false end.

(** Polymarket books: the local stream state first, REST when both sides are empty. *)
Definition pm_book (c : Clients) (pm_state : option PolymarketStreamState)
    (m : Market) (side : OutcomeSide) : OrderBook :=
  let from_state :=
    match pm_state with
    | Some st => match get_orderbook_for_market st m side with Some b => b | None => empty_book end
    | None => empty_book
    end in
  if book_is_empty from_state then pm_get_orderbook c m side else from_state.

(** The (Polymarket, Opinion) books of a route. *)
Definition route_books (c : Clients) (pm_state : option PolymarketStreamState)
    (p : MatchedMarket) (r : Route) : OrderBook * OrderBook :=
  match r with
  | PM_NO_OP_YES => (pm_book c pm_state (polymarket p) NO, op_get_orderbook c (opinion p) YES)
  | PM_YES_OP_NO => (pm_book c pm_state (polymarket p) YES, op_get_orderbook c (opinion p) NO)
  end.

(** One route of one pair: the gates of [scan_once]. *)
Definition eval_route (s : Settings) (p : MatchedMarket) (r : Route)
    (books : OrderBook * OrderBook) : option ArbOpportunity :=
  let '(pmb, opb) := books in
  let pm_best := best_price pmb Buy in
  let op_best := best_price opb Buy in
  let pm_fill := compute_fill pmb Buy (default_quote_size s) in
  let op_fill := compute_fill opb Buy (default_quote_size s) in
  let sz := py_min (filled_size pm_fill) (filled_size op_fill) in
  let cst := average_price pm_fill + average_price op_fill in
  let profit := (1 - cst) * 100 in
  if py_le (min_trade_size s) sz && py_lt cst 1 && py_le (min_profit_percent s) profit
     && clamp_slippage pm_best (average_price pm_fill) (max_slippage_bps s)
     && clamp_slippage op_best (average_price op_fill) (max_slippage_bps s)
  then Some (mkArb p r cst profit sz (py_min (filled_size pm_fill) (filled_size op_fill)))
  else None.

Definition option_to_list {A} (o : option A) : list A :=
  match o with Some a => [a] | None => [] end.

Definition scan_pair (c : Clients) (pm_state : option PolymarketStreamState)
    (p : MatchedMarket) : list ArbOpportunity :=
  option_to_list (eval_route (settings c) p PM_NO_OP_YES (route_books c pm_state p PM_NO_OP_YES))
  ++ option_to_list (eval_route (settings c) p PM_YES_OP_NO (route_books c pm_state p PM_YES_OP_NO)).

(** [sorted(results, key=profit_percent, reverse=True)]: a stable sort, descending. *)
Fixpoint insert_desc (x : ArbOpportunity) (l : list ArbOpportunity) : list ArbOpportunity :=
  match l with
  | [] => [x]
  | y :: l' => if py_lt (profit_percent y) (profit_percent x) then x :: l else y :: insert_desc x l'
  end.

Definition sort_desc (l : list ArbOpportunity) : list ArbOpportunity :=
  fold_left (fun acc x => insert_desc x acc) l [].

Section Scan.
Variable lower : string -> string.
Variable seq_ratio : string -> string -> Q.

Definition scan_once (c : Clients) (limit : nat) (threshold : Q)
    (pm_state : option PolymarketStreamState) : list ArbOpportunity :=
  let pm_markets := pm_list_active_markets c limit in
  let op_markets := op_list_active_markets c limit in
  let matched := match_markets lower seq_ratio pm_markets op_markets threshold in
  sort_desc (flat_map (scan_pair c pm_state) matched).
End Scan.

(** The acceptance condition of a route as the spec words it. *)
Definition route_accepted (s : Settings) (books : OrderBook * OrderBook) : Prop :=
  let '(pmb, opb) := books in
  let pm_fill := compute_fill pmb Buy (default_quote_size s) in
  let op_fill := compute_fill opb Buy (default_quote_size s) in
  let cst := average_price pm_fill + average_price op_fill in
  min_trade_size s <= Qmin (filled_size pm_fill) (filled_size op_fill) /\
  cst < 1 /\
  min_profit_percent s <= (1 - cst) * 100 /\
  clamp_slippage (best_price pmb Buy) (average_price pm_fill) (max_slippage_bps s) = true /\
  clamp_slippage (best_price opb Buy) (average_price op_fill) (max_slippage_bps s) = true.

End Scanner.


(** ** [services/rebalance_monitor.py] *)
Module Rebalance.
Import Stream.

(** The monitor's state: the YES-price EMA baseline of each condition id. *)
Record RebalanceMonitor := mkMonitor {
  baseline_yes : gmap string Q;
  ema_alpha : Q
}.

(** [RebalanceSignal] of [types.py]; the free-text [reason] is left out and the
    [baseline_yes] field is renamed to keep projections distinct. *)
Record RebalanceSignal := mkSignal {
  market : Market;
  direction : string;
  current_yes : Q;
  signal_baseline_yes : Q;
  delta : Q;
  last_trade_notional : Q;
  window_seconds : Z
}.

(** [_estimate_yes_price]: mid of the best bid and ask, else the side present. *)
Definition estimate_yes_price (book : OrderBook) : option Q :=
  match best_bid book, best_ask book with
  | Some b, Some a => Some ((price b + price a) / 2)
  | Some b, None => Some (price b)
  | None, Some a => Some (price a)
  | None, None => None
  end.

(** [_update_baseline]: the new baseline and the updated monitor. *)
Definition update_baseline (mon : RebalanceMonitor) (cid : string) (p : Q)
    : Q * RebalanceMonitor :=
  let baseline := match baseline_yes mon !! cid with
                  | None => p
                  | Some previous => ema_alpha mon * p + (1 - ema_alpha mon) * previous
                  end in
  (baseline, mkMonitor (<[cid := baseline]> (baseline_yes mon)) (ema_alpha mon)).

(** [datetime.replace] with keyword arguments: a keyword outside its parameters raises TypeError. *)
Definition datetime_replace_keywords : list string :=
  ["year"; "month"; "day"; "hour"; "minute"; "second"; "microsecond"; "tzinfo"; "fold"].

Definition datetime_replace (t : Q) (kwargs : list string) : result Q :=
  if forallb (fun k => existsb (String.eqb k) datetime_replace_keywords) kwargs
  then Ok t else Raise TypeError.

(** [lst[-1]]: IndexError on an empty list. *)
Definition py_last {A} (l : list A) : result A :=
  match rev l with a :: _ => Ok a | [] => Raise IndexError end.

Section Detect.
Variables (min_abs_move min_notional : Q) (max_age_seconds min_trades : Z).
Variable state : PolymarketStreamState.
Variable now_ts : Z.

(** One iteration of the loop over [markets] in [detect_signals]: [Ok] with the
    (possibly extended) result list, or the exception; with the monitor after it. *)
Definition process_market (mon : RebalanceMonitor) (results : list RebalanceSignal)
    (m : Market) : result (list RebalanceSignal) * RebalanceMonitor :=
  match platform m with
  | OPINION => (Ok results, mon)
  | POLYMARKET =>
    if negb (truthy_id (condition_id m)) || negb (truthy_id (yes_token_id m))
    then (Ok results, mon) else
    let cid := match condition_id m with Some c => c | None => "" end in
    match get_orderbook_for_market state m YES with
    | None => (Ok results, mon)
    | Some book =>
      match estimate_yes_price book with
      | None => (Ok results, mon)
      | Some current_yes =>
        let '(baseline, mon') := update_baseline mon cid current_yes in
        let delta := current_yes - baseline in
        if py_lt (Qabs delta) min_abs_move then (Ok results, mon') else
        let trades := get_last_trades state cid 50 in
        if (Z.of_nat (length trades) <? min_trades)%Z then (Ok results, mon') else
        match py_last trades with
        | Raise e => (Raise e, mon')
        | Ok last_trade =>
          let age := (now_ts - TE.timestamp last_trade)%Z in
          if (age <? 0)%Z || (max_age_seconds <? age)%Z then (Ok results, mon') else
          if py_lt (TE.notional last_trade) min_notional then (Ok results, mon') else
          let direction := if py_lt 0 delta then "short_yes" else "short_no" in
          (Ok (results ++ [mkSignal m direction current_yes baseline delta
                             (TE.notional last_trade) max_age_seconds]), mon')
        end
      end
    end
  end.

Fixpoint scan_markets (mon : RebalanceMonitor) (markets : list Market)
    (results : list RebalanceSignal) : result (list RebalanceSignal) * RebalanceMonitor :=
  match markets with
  | [] => (Ok results, mon)
  | m :: rest =>
      match process_market mon results m with
      | (Ok results', mon') => scan_markets mon' rest results'
      | (Raise e, mon') => (Raise e, mon')
      end
  end.
End Detect.

(** [results.sort(key=lambda s: (abs(s.delta), s.last_trade_notional), reverse=True)]:
    a stable sort, descending on the key tuple. *)
Definition signal_key_lt (a b : RebalanceSignal) : bool :=
  py_lt (Qabs (delta a)) (Qabs (delta b)) ||
  (Qeq_bool (Qabs (delta a)) (Qabs (delta b)) &&
   py_lt (last_trade_notional a) (last_trade_notional b)).

Fixpoint insert_signal (x : RebalanceSignal) (l : list RebalanceSignal) : list RebalanceSignal :=
  match l with
  | [] => [x]
  | y :: rest => if signal_key_lt y x then x :: y :: rest else y :: insert_signal x rest
  end.

Definition sort_signals (l : list RebalanceSignal) : list RebalanceSignal :=
  fold_left (fun acc x => insert_signal x acc) l [].

(** [detect_signals]: [now] is the caller's time as a POSIX timestamp, [clock] the
    value of [datetime.utcnow()]; [now_ts = int(now.timestamp())]. *)
Definition detect_signals (mon : RebalanceMonitor) (state : PolymarketStreamState)
    (markets : list Market) (min_abs_move min_notional : Q)
    (max_age_seconds min_trades : Z) (now : option Q) (clock : Q)
    : result (list RebalanceSignal) * RebalanceMonitor :=
  let now := match now with
             | None => datetime_replace clock ["tz"]
             | Some t => Ok t
             end in
  match now with
  | Raise e => (Raise e, mon)
  | Ok t =>
      let now_ts := q_trunc t in
      match scan_markets min_abs_move min_notional max_age_seconds min_trades state now_ts
              mon markets [] with
      | (Ok results, mon') => (Ok (sort_signals results), mon')
      | (Raise e, mon') => (Raise e, mon')
      end
  end.

(** The signals of [res] for condition id [cid]. *)
Definition signals_for (cid : string) (res : list RebalanceSignal) : list RebalanceSignal :=
  List.filter (fun s => bool_decide (condition_id (market s) = Some cid)) res.

(** The number of markets of [markets] with condition id [cid]. *)
Definition markets_with (cid : string) (markets : list Market) : nat :=
  length (List.filter (fun m => bool_decide (condition_id m = Some cid)) markets).

End Rebalance.

(** ** [services/barrier_pricing.py], over the reals *)
Module Barrier.
Local Open Scope R_scope.

(** [math.sqrt], [math.log] and [/] on floats: ValueError outside the domain,
    ZeroDivisionError on a zero divisor. *)
Definition py_sqrt (x : R) : result R :=
  if Rlt_dec x 0 then Raise ValueError else Ok (sqrt x).
Definition py_log (x : R) : result R :=
  if Rle_dec x 0 then Raise ValueError else Ok (ln x).
Definition py_div (x y : R) : result R :=
  if Req_EM_T y 0 then Raise ZeroDivisionError else Ok (x / y).

(** [x ** y] for a positive float base (every call below has one): OverflowError
    when the power is at least [2^1024], past the largest double. *)
Definition py_pow (x y : R) : result R :=
  if Rle_dec (2 ^ 1024) (Rpower x y) then Raise OverflowError else Ok (Rpower x y).

(** [max(0.0, min(1.0, p))]: [min] keeps its first argument unless the second is
    smaller, [max] unless the second is larger. *)
Definition py_min (a b : R) : R := if Rlt_dec b a then b else a.
Definition py_max (a b : R) : R := if Rlt_dec a b then b else a.

Section Pricing.
(** [math.erf], from the C library. *)
Variable erf : R -> R.

Definition norm_cdf (x : R) : R := 0.5 * (1 + erf (x / sqrt 2)).

Definition one_touch_prob (spot barrier years vol drift : R) (direction : string)
    : result (option R) :=
  if Rle_dec spot 0 then Ok None else
  if Rle_dec barrier 0 then Ok None else
  if Rle_dec years 0 then Ok None else
  if Rle_dec vol 0 then Ok None else
  let mu := drift in
  let sigma := vol in
  sqrt_t <- py_sqrt years ;;
  spot <- (if String.eqb direction "down" then py_div 1 spot else Ok spot) ;;
  barrier <- (if String.eqb direction "down" then py_div 1 barrier else Ok barrier) ;;
  r <- py_div spot barrier ;;
  ln_ratio <- py_log r ;;
  let denom := sigma * sqrt_t in
  if Req_EM_T denom 0 then Ok None else
  d1 <- py_div (ln_ratio + (mu + 0.5 * sigma * sigma) * years) denom ;;
  d2 <- py_div (ln_ratio + (mu - 0.5 * sigma * sigma) * years) denom ;;
  kappa <- (if Rlt_dec 0 sigma then py_div (2 * mu) (sigma * sigma) else Ok 0) ;;
  b_over_s <- py_div barrier spot ;;
  term_reflect <- py_pow b_over_s kappa ;;
  let prob := norm_cdf (- d2) + term_reflect * norm_cdf d1 in
  Ok (Some (py_max 0 (py_min 1 prob))).

Definition no_touch_prob (spot barrier years vol drift : R) (direction : string)
    : result (option R) :=
  touch <- one_touch_prob spot barrier years vol drift direction ;;
  match touch with
  | None => Ok None
  | Some t => Ok (Some (py_max 0 (1 - t)))
  end.
End Pricing.
End Barrier.

(** ** [services/hedge_scanner.py]: [scan_hedged_opportunities] up to the choice of
    volatility *)
Module Hedge.
Local Open Scope R_scope.

Record HedgeMarketConfig := mkHedgeMarketConfig {
  hm_market_id : string;
  underlying_symbol : string;
  strike : R;
  expiry : string;
  yes_on_above : bool;
  est_vol : option R;
  payoff_type : string;
  barrier : string;
  drift : R;
  vol_lookback_days : option Z;
  vol_timeframe : option string
}.

(** The (yes, no) prices of [get_best_prices]. *)
Definition Quote := (R * R)%type.

(** The awaited client calls; an exception of the call is its [Raise]. *)
Record HedgeClients := mkHedgeClients {
  pm_list_active_markets : Z -> result (list Market);
  get_best_prices : Market -> result Quote;
  fetch_mark_price : string -> result R;
  fetch_realized_vol : string -> string -> Z -> Z -> result (option R)
}.

(** Python values a global name of the module can be bound to: a module, class or
    function object, or the volatility cache dict
    [dict[tuple[str, str, int], Optional[float]]] as an association list. *)
Definition CacheKey := (string * string * Z)%type.
Inductive pyval :=
| PyObject (what : string)
| PyVolCache (d : list (CacheKey * option R)).

(** The global namespace of [hedge_scanner.py] after its import: one entry per
    top-level binding.  The only [vol_cache] binding in the file is an annotated
    assignment in the body of [_implied_touch_prob], after its [return]: a local of
    that function, never executed, so not a global. *)
Definition hedge_scanner_globals : list (string * pyval) :=
  [("__name__", PyObject "str"); ("__doc__", PyObject "str");
   ("annotations", PyObject "__future__._Feature");
   ("json", PyObject "module"); ("math", PyObject "module");
   ("datetime", PyObject "class"); ("timezone", PyObject "class");
   ("Path", PyObject "class"); ("Iterable", PyObject "typing");
   ("List", PyObject "typing"); ("Optional", PyObject "typing");
   ("PerpClient", PyObject "class"); ("PolymarketClient", PyObject "class");
   ("no_touch_prob", PyObject "function"); ("one_touch_prob", PyObject "function");
   ("HedgeMarketConfig", PyObject "class"); ("HedgeOpportunity", PyObject "class");
   ("Market", PyObject "class");
   ("load_hedge_markets", PyObject "function");
   ("scan_hedged_opportunities", PyObject "function");
   ("_implied_prob_above", PyObject "function"); ("_parse_expiry", PyObject "function");
   ("_norm_cdf", PyObject "function"); ("_implied_touch_prob", PyObject "function")].

(** The built-in names the module uses. *)
Definition py_builtin_names : list string :=
  ["abs"; "bool"; "dict"; "Exception"; "float"; "isinstance"; "list"; "max"; "min";
   "sorted"; "str"; "tuple"; "int"].

(** A global name lookup (LOAD_GLOBAL): the module's globals, then the built-ins,
    else NameError. *)
Definition load_global (ns : list (string * pyval)) (name : string) : result pyval :=
  match find (fun kv => String.eqb (fst kv) name) ns with
  | Some (_, v) => Ok v
  | None => if existsb (String.eqb name) py_builtin_names
            then Ok (PyObject "builtin") else Raise NameError
  end.

(** Rebinding a global to a new value (the dict mutated in place). *)
Definition store_global (ns : list (string * pyval)) (name : string) (v : pyval)
    : list (string * pyval) :=
  (name, v) :: List.filter (fun kv => negb (String.eqb (fst kv) name)) ns.

Definition key_eqb (a b : CacheKey) : bool :=
  let '(s1, t1, d1) := a in let '(s2, t2, d2) := b in
  String.eqb s1 s2 && String.eqb t1 t2 && Z.eqb d1 d2.

Definition cache_get (d : list (CacheKey * option R)) (k : CacheKey) : option (option R) :=
  option_map snd (find (fun kv => key_eqb (fst kv) k) d).

(** [x or default] for an optional float, string and int. *)
Definition or_float (o : option R) (dflt : R) : R :=
  match o with Some v => if Req_EM_T v 0 then dflt else v | None => dflt end.
Definition or_string (o : option string) (dflt : string) : string :=
  match o with Some s => if String.eqb s "" then dflt else s | None => dflt end.
Definition or_int (o : option Z) (dflt : Z) : Z :=
  match o with Some d => if Z.eqb d 0 then dflt else d | None => dflt end.

(** [{m.market_id: m for m in pm_markets}]: a later market of the same id wins. *)
Definition build_index (pms : list Market) : gmap string Market :=
  fold_left (fun idx m => <[market_id m := m]> idx) pms ∅.

Section Scan.
Variable HedgeOpportunity : Type.
(** The rest of the loop body (the probability model chosen by [payoff_type], the
    edge filter, the funding rate and the opportunity): from the mapping, its
    market, the quote, the spot and the chosen volatility, an opportunity or
    [None] ([continue]). *)
Variable price_mapping :
  HedgeMarketConfig -> Market -> Quote -> R -> R -> result (option HedgeOpportunity).
(** [sorted(results, key=lambda x: abs(x.edge_percent), reverse=True)]. *)
Variable sort_by_abs_edge : list HedgeOpportunity -> list HedgeOpportunity.

Variable c : HedgeClients.
Variables (default_vol : R) (use_realized_vol : bool) (vol_timeframe_default : string)
          (vol_lookback_days_default vol_max_candles : Z).

(** Lines 110-123: the volatility used for a mapping, and the namespace after the
    cache update. *)
Definition select_vol (ns : list (string * pyval)) (mp : HedgeMarketConfig)
    : result (R * list (string * pyval)) :=
  let vol := or_float (est_vol mp) default_vol in
  if negb use_realized_vol then Ok (vol, ns) else
  let tf := or_string (vol_timeframe mp) vol_timeframe_default in
  let lb_days := or_int (vol_lookback_days mp) vol_lookback_days_default in
  let cache_key := (underlying_symbol mp, tf, lb_days) in
  cache <- load_global ns "vol_cache" ;;
  d <- (match cache with
        | PyVolCache d => Ok d
        | PyObject _ => Raise TypeError
        end) ;;
  dn <- (match cache_get d cache_key with
         | Some _ => Ok (d, ns)
         | None =>
             v <- fetch_realized_vol c (underlying_symbol mp) tf lb_days vol_max_candles ;;
             let d' := (cache_key, v) :: d in
             Ok (d', store_global ns "vol_cache" (PyVolCache d'))
         end) ;;
  let '(d, ns) := dn in
  match cache_get d cache_key with
  | Some (Some v) => if Req_EM_T v 0 then Ok (vol, ns) else Ok (v, ns)
  | _ => Ok (vol, ns)
  end.

(** One iteration of the loop over [mappings]. *)
Definition scan_mapping (index : gmap string Market) (ns : list (string * pyval))
    (mp : HedgeMarketConfig) : result (option HedgeOpportunity * list (string * pyval)) :=
  match index !! hm_market_id mp with
  | None => Ok (None, ns)
  | Some market =>
      quote <- get_best_prices c market ;;
      match fetch_mark_price c (underlying_symbol mp) with
      | Raise _ => Ok (None, ns)
      | Ok spot =>
          vn <- select_vol ns mp ;;
          let '(vol, ns') := vn in
          o <- price_mapping mp market quote spot vol ;;
          Ok (o, ns')
      end
  end.

Fixpoint scan_mappings (index : gmap string Market) (ns : list (string * pyval))
    (mappings : list HedgeMarketConfig) (results : list HedgeOpportunity)
    : result (list HedgeOpportunity) :=
  match mappings with
  | [] => Ok results
  | mp :: rest =>
      r <- scan_mapping index ns mp ;;
      let '(o, ns') := r in
      scan_mappings index ns' rest
        (match o with Some x => results ++ [x] | None => results end)
  end.

Definition scan_hedged_opportunities (pm_limit : Z) (mappings : list HedgeMarketConfig)
    : result (list HedgeOpportunity) :=
  pm_markets <- pm_list_active_markets c pm_limit ;;
  let index := build_index pm_markets in
  results <- scan_mappings index hedge_scanner_globals mappings [] ;;
  Ok (sort_by_abs_edge results).
End Scan.
End Hedge.

(** ** [connectors/polymarket_ws.py]: book snapshots and the trade window *)
Module StreamBook.
Import Stream.

(** A JSON value of a book message as [json.loads] returns it: a scalar, an array
    or an object (an association list, first key wins). *)
#[warnings="-register-all"]
Inductive wsval :=
| WScalar (v : jval)
| WList (l : list wsval)
| WDict (d : list (string * wsval)).

(** [entry.get(key)]. *)
Definition ws_get (d : list (string * wsval)) (k : string) : wsval :=
  match find (fun kv => String.eqb (fst kv) k) d with
  | Some (_, v) => v
  | None => WScalar JNone
  end.

Definition ws_is_none (v : wsval) : bool :=
  match v with WScalar JNone => true | _ => false end.

Section Levels.
Variable str_to_float : string -> option Q.

(** [float(v)]: on a list or a dict it raises TypeError. *)
Definition ws_float (v : wsval) : result Q :=
  match v with
  | WScalar s => py_float str_to_float s
  | _ => Raise TypeError
  end.

(** [OrderBookLevel(price=float(p), size=float(s))] under [try ... except Exception:
    return None]. *)
Definition level_of (p s : wsval) : option OrderBookLevel :=
  match ws_float p with
  | Raise _ => None
  | Ok pf => match ws_float s with Raise _ => None | Ok sf => Some (mkLevel pf sf) end
  end.

(** [_to_level]. *)
Definition to_level (entry : wsval) : option OrderBookLevel :=
  match entry with
  | WDict d =>
      let price := ws_get d "price" in
      let size := ws_get d "size" in
      if ws_is_none price || ws_is_none size then None else level_of price size
  | WList (p :: s :: _) => level_of p s
  | _ => None
  end.

(** The loop of [apply_book_snapshot] over one side. *)
Definition collect_levels (entries : list wsval) : list OrderBookLevel :=
  fold_left (fun acc entry =>
               match to_level entry with Some level => acc ++ [level] | None => acc end)
            entries [].

(** [apply_book_snapshot]: the asset's book is replaced. *)
Definition apply_book_snapshot (st : PolymarketStreamState) (asset_id : string)
    (bids asks : list wsval) : PolymarketStreamState :=
  mkStreamState (<[asset_id := mkBook (collect_levels bids) (collect_levels asks)]>
                   (orderbooks st))
                (trades_by_condition st) (max_trades_per_market st).
End Levels.

(** [lst[start:]] with Python's index normalisation: a negative start counts from
    the end, and both are clamped to [0, len]. *)
Definition py_slice_from {A} (l : list A) (start : Z) : list A :=
  let n := Z.of_nat (length l) in
  let s := if (start <? 0)%Z then Z.max 0 (n + start) else Z.min start n in
  skipn (Z.to_nat s) l.

(** [get_last_trades] for any Python int [limit]: [list(buf)[-limit:]]. *)
Definition get_last_trades_int (st : PolymarketStreamState) (cid : string) (limit : Z)
    : list TE.TradeEvent :=
  match trades_by_condition st !! cid with
  | None => []
  | Some buf => match items buf with [] => [] | l => py_slice_from l (- limit) end
  end.

(** Every buffer holds at most [max_trades_per_market] trades. *)
Definition buffers_bounded (st : PolymarketStreamState) : Prop :=
  map_Forall (fun _ b => (length (items b) <= max_trades_per_market st)%nat)
             (trades_by_condition st).

End StreamBook.

(** ** [services/hedge_scanner.py]: the implied probabilities *)
Module HedgeProb.
Import Barrier.
Local Open Scope R_scope.

(** [value.endswith(suffix)]. *)
Definition str_endswith (s suffix : string) : bool :=
  (String.length suffix <=? String.length s)%nat &&
  String.eqb (substring (String.length s - String.length suffix) (String.length suffix) s)
             suffix.

(** [value.replace(c, rep)] for a one-character [c]: every occurrence. *)
Fixpoint str_replace_char (c : Ascii.ascii) (rep : string) (s : string) : string :=
  match s with
  | EmptyString => EmptyString
  | String d r =>
      if Ascii.eqb d c then rep ++ str_replace_char c rep r
      else String d (str_replace_char c rep r)
  end.

(** Seconds per year, [365.0 * 24 * 3600]. *)
Definition year_seconds : R := 365 * 24 * 3600.

(** The double division [x / y] where its result reaches [math.log]:
    [ZeroDivisionError] when [y] is 0, and a quotient of magnitude at most [2^-1075]
    (half the smallest subnormal) rounds to [0.0] (round to nearest, ties to even).
    Other rounding is not modelled. *)
Definition float_div (x y : R) : result R :=
  if Req_EM_T y 0 then Raise ZeroDivisionError
  else if Rle_dec (Rabs (x / y)) (/ 2 ^ 1075) then Ok 0 else Ok (x / y).

(** [erf] of the C library that [math.erf] calls (glibc [s_erf.c]): for [|x| >= 6]
    it returns [one - tiny] or [tiny - one], which round to exactly [1.0] and [-1.0];
    below 6 the value comes from the library's rational approximations, given here
    as [erf_core]. *)
Definition libm_erf (erf_core : R -> R) (x : R) : R :=
  if Rle_dec 6 x then 1 else if Rle_dec x (-6) then -1 else erf_core x.

Section Prob.
(** [math.erf]; and [datetime.fromisoformat(v).astimezone(timezone.utc)] as a POSIX
    timestamp, [None] when it raises: Python built-ins. *)
Variable erf : R -> R.
Variable iso_utc_timestamp : string -> option R.

(** [_parse_expiry]. *)
Definition parse_expiry (value : string) : option R :=
  if String.eqb value "" then None else
  let value := if str_endswith value "Z"
               then str_replace_char (Ascii.ascii_of_nat 90) "+00:00" value else value in
  iso_utc_timestamp value.

(** [_norm_cdf] of [hedge_scanner.py]. *)
Definition hs_norm_cdf (x : R) : R := 0.5 * (1 + erf (x / sqrt 2)).

(** [_implied_prob_above]; [now] is a POSIX timestamp. *)
Definition implied_prob_above (spot strike : R) (expiry : string) (now vol : R)
    : result (option R * R) :=
  match parse_expiry expiry with
  | None => Ok (None, 0)
  | Some expiry_dt =>
    if Rle_dec spot 0 then Ok (None, 0) else
    if Rle_dec strike 0 then Ok (None, 0) else
    let seconds := expiry_dt - now in
    if Rle_dec seconds 0 then Ok (None, 0) else
    years <- py_div seconds year_seconds ;;
    let sigma := py_max vol (1 / 1000000) in
    sqrt_y <- py_sqrt years ;;
    let denom := sigma * sqrt_y in
    if Rle_dec denom 0 then Ok (None, years) else
    r <- float_div spot strike ;;
    ln_r <- py_log r ;;
    d2 <- py_div (ln_r - 0.5 * sigma * sigma * years) denom ;;
    Ok (Some (hs_norm_cdf d2), years)
  end.

End Prob.
End HedgeProb.

(** ** Proofs: pricing *)
Module PricingProofs.
Import Pricing.

Lemma py_min_spec a b : (py_min a b == Qmin a b)%Q.
Proof.
  unfold py_min, py_lt. destruct (Qle_bool a b) eqn:E.
  - apply Qle_bool_iff in E. simpl. rewrite Q.min_l; [reflexivity|exact E].
  - simpl. assert (b <= a) as H.
    { destruct (Qlt_le_dec b a) as [H|H]; [apply Qlt_le_weak, H|].
      exfalso. assert (a <= b) by (apply Qle_trans with b; [|apply Qle_refl]; lra).
      apply Qle_bool_iff in H0. congruence. }
    rewrite Q.min_r; [reflexivity|exact H].
Qed.

Lemma py_le_true x y : py_le x y = true <-> x <= y.
Proof. unfold py_le. apply Qle_bool_iff. Qed.

Lemma py_lt_true x y : py_lt x y = true <-> x < y.
Proof.
  unfold py_lt. split.
  - intros H. destruct (Qlt_le_dec x y) as [L|L]; [exact L|].
    apply Qle_bool_iff in L. rewrite L in H. discriminate.
  - intros H. destruct (Qle_bool y x) eqn:E; [|reflexivity].
    apply Qle_bool_iff in E. lra.
Qed.








(** C8: an empty relevant side, or more generally a walk that filled nothing,
    yields the sentinel fill (average 1.0, size 0, notional 0); [best_price] is
    1.0 on an empty side and the first level's price otherwise. *)
Theorem compute_fill_best_price_sentinel :
  (forall ob side s, side_levels ob side = [] -> compute_fill ob side s = mkFill 1 0 0) /\
  (forall ob side s, snd (walk (side_levels ob side) s 0 0) == 0 ->
     compute_fill ob side s = mkFill 1 0 0) /\
  (forall ob side s, filled_size (compute_fill ob side s) == 0 ->
     compute_fill ob side s = mkFill 1 0 0) /\
  (forall ob side, side_levels ob side = [] -> best_price ob side = 1) /\
  (forall ob side l rest, side_levels ob side = l :: rest -> best_price ob side = price l).
Proof.
  split; [|split; [|split; [|split]]].
  - intros ob side s H. unfold compute_fill. rewrite H. reflexivity.
  - intros ob side s H. unfold compute_fill in *.
    destruct (walk (side_levels ob side) s 0 0) as [n f]. simpl in H.
    apply Qeq_bool_iff in H. rewrite H. reflexivity.
  - intros ob side s H. unfold compute_fill in *.
    destruct (walk (side_levels ob side) s 0 0) as [n f].
    destruct (Qeq_bool f 0) eqn:E; [reflexivity|].
    simpl in H. apply Qeq_bool_iff in H. congruence.
  - intros ob [|] H; unfold best_price, best_ask, best_bid; simpl in H; rewrite H; reflexivity.
  - intros ob [|] l rest H; unfold best_price, best_ask, best_bid; simpl in H; rewrite H; reflexivity.
Qed.

End PricingProofs.

(** ** Proofs: matcher *)
Module MatcherProofs.
Import Matcher.

Section Proofs.
Variable lower : string -> string.
Variable seq_ratio : string -> string -> Q.
Abbreviation ratio := (ratio lower seq_ratio).
Abbreviation best_for := (best_for lower seq_ratio).

(** What the inner loop returns, from a given [best_match]. *)
Definition best_for_post (pm : Market) (used : gset string) (threshold : Q)
    (ops : list Market) (best res : option (Q * Market)) : Prop :=
  (res = best /\
   forall op, In op ops -> market_id op ∉ used ->
     ~ (threshold <= ratio pm op /\ beats best (ratio pm op) = true)) \/
  (exists pre op post,
     ops = pre ++ op :: post /\ market_id op ∉ used /\
     threshold <= ratio pm op /\ beats best (ratio pm op) = true /\
     res = Some (ratio pm op, op) /\
     (forall op', In op' ops -> market_id op' ∉ used -> ratio pm op' <= ratio pm op) /\
     (forall op', In op' pre -> market_id op' ∉ used -> ratio pm op' < ratio pm op)).

Lemma beats_trans best r1 r2 :
  beats best r1 = true -> r1 < r2 -> beats best r2 = true.
Proof.
  destruct best as [[b bop]|]; simpl; [|reflexivity].
  rewrite !PricingProofs.py_lt_true. lra.
Qed.

Lemma best_for_correct pm used threshold ops :
  forall best, best_for_post pm used threshold ops best (best_for pm used threshold ops best).
Proof.
  induction ops as [|op rest IH]; intros best; simpl.
  - left. split; [reflexivity|]. intros op [].
  - destruct (bool_decide (market_id op ∈ used)) eqn:U.
    + apply bool_decide_eq_true in U.
      destruct (IH best) as [[Hres Hall]|(pre & op2 & post & Hops & Hu & Ht & Hb & Hres & Hmax & Hpre)].
      * left. split; [exact Hres|]. intros op' [<-|Hin] Hnu; [contradiction|].
        apply Hall; assumption.
      * right. exists (op :: pre), op2, post.
        split; [rewrite Hops; reflexivity|].
        repeat split; try assumption.
        -- intros op' [<-|Hin] Hnu; [contradiction|]. apply Hmax; assumption.
        -- intros op' [<-|Hin] Hnu; [contradiction|]. apply Hpre; assumption.
    + apply bool_decide_eq_false in U.
      destruct (py_le threshold (ratio pm op) && beats best (ratio pm op)) eqn:P.
      * apply andb_prop in P. destruct P as [P1 P2]. apply PricingProofs.py_le_true in P1.
        destruct (IH (Some (ratio pm op, op)))
          as [[Hres Hall]|(pre & op2 & post & Hops & Hu & Ht & Hb & Hres & Hmax & Hpre)].
        -- right. exists [], op, rest. rewrite Hres.
           repeat split; try assumption.
           ++ intros op' [<-|Hin] Hnu; [apply Qle_refl|].
              destruct (Qlt_le_dec (ratio pm op') threshold) as [L|L]; [lra|].
              destruct (Qlt_le_dec (ratio pm op) (ratio pm op')) as [L2|L2]; [|exact L2].
              exfalso. apply (Hall op' Hin Hnu). split; [exact L|].
              simpl. apply PricingProofs.py_lt_true. exact L2.
           ++ intros op' [].
        -- simpl in Hb. apply PricingProofs.py_lt_true in Hb.
           right. exists (op :: pre), op2, post.
           split; [rewrite Hops; reflexivity|].
           repeat split; try assumption.
           ++ apply (beats_trans best (ratio pm op)); assumption.
           ++ intros op' [<-|Hin] Hnu; [lra|]. apply Hmax; assumption.
           ++ intros op' [<-|Hin] Hnu; [lra|]. apply Hpre; assumption.
      * assert (NP : ~ (threshold <= ratio pm op /\ beats best (ratio pm op) = true)).
        { intros [A B]. apply PricingProofs.py_le_true in A. rewrite A, B in P. discriminate. }
        destruct (IH best) as [[Hres Hall]|(pre & op2 & post & Hops & Hu & Ht & Hb & Hres & Hmax & Hpre)].
        -- left. split; [exact Hres|]. intros op' [<-|Hin] Hnu; [exact NP|].
           apply Hall; assumption.
        -- assert (Hlt : ratio pm op < ratio pm op2).
           { destruct (Qlt_le_dec (ratio pm op) threshold) as [L|L]; [lra|].
             destruct best as [[b bop]|]; simpl in NP, Hb; [|tauto].
             rewrite PricingProofs.py_lt_true in NP, Hb.
             destruct (Qlt_le_dec b (ratio pm op)) as [L2|L2]; [tauto|lra]. }
           right. exists (op :: pre), op2, post.
           split; [rewrite Hops; reflexivity|].
           repeat split; try assumption.
           ++ intros op' [<-|Hin] Hnu; [lra|]. apply Hmax; assumption.
           ++ intros op' [<-|Hin] Hnu; [lra|]. apply Hpre; assumption.
Qed.

Lemma match_loop_spec ops threshold pms :
  forall used, greedy_spec lower seq_ratio threshold ops pms used
                 (match_loop lower seq_ratio pms ops threshold used).
Proof.
  induction pms as [|pm rest IH]; intros used; simpl; [constructor|].
  destruct (best_for_correct pm used threshold ops None)
    as [[Hres Hall]|(pre & op & post & Hops & Hu & Ht & Hb & Hres & Hmax & Hpre)].
  - rewrite Hres. apply gs_skip; [|apply IH].
    intros op Hin Hnu. destruct (Qlt_le_dec (ratio pm op) threshold) as [L|L]; [exact L|].
    exfalso. apply (Hall op Hin Hnu). split; [exact L|reflexivity].
  - rewrite Hres. eapply gs_pair; eauto.
Qed.

Lemma greedy_spec_props threshold ops pms used out :
  greedy_spec lower seq_ratio threshold ops pms used out ->
  (forall p, In p out -> market_id (opinion p) ∉ used) /\
  NoDup (map (fun p => market_id (opinion p)) out) /\
  Forall (fun p => threshold <= similarity p) out /\
  sublist (map polymarket out) pms.
Proof.
  induction 1 as [used|pm rest used out Hskip Hs IH
                 |pm rest used out pre op post Hops Hu Ht Hmax Hpre Hs IH].
  - simpl. repeat split; [intros p []|constructor|constructor|constructor].
  - destruct IH as (A & B & C & D). repeat split; try assumption.
    apply sublist_cons. exact D.
  - destruct IH as (A & B & C & D). repeat split.
    + intros p [<-|Hin]; [exact Hu|]. intros Hin'. apply (A p Hin). set_solver.
    + simpl. constructor; [|exact B].
      intros Hin. apply list_elem_of_In, in_map_iff in Hin. destruct Hin as (p & Hp & Hin).
      apply (A p Hin). rewrite Hp. set_solver.
    + constructor; [exact Ht|exact C].
    + simpl. apply sublist_skip. exact D.
Qed.

(** C9: [match_markets] is the greedy matching of the spec (venue-A order, each
    paired with the first not-yet-used venue-B market of maximal case-insensitive
    similarity, only when that maximum reaches the threshold); every emitted pair
    meets the threshold, no venue-B market id is used twice, and the venue-A
    markets of the pairs keep their input order. *)
Theorem match_markets_greedy (pms ops : list Market) (threshold : Q) :
  let out := match_markets lower seq_ratio pms ops threshold in
  greedy_spec lower seq_ratio threshold ops pms ∅ out /\
  NoDup (map (fun p => market_id (opinion p)) out) /\
  Forall (fun p => threshold <= similarity p /\
                   similarity p = ratio (polymarket p) (opinion p)) out /\
  sublist (map polymarket out) pms.
Proof.
  intros out. pose proof (match_loop_spec ops threshold pms ∅) as H.
  destruct (greedy_spec_props _ _ _ _ _ H) as (A & B & C & D).
  repeat split; [exact H|exact B| |exact D].
  clear A B C D. unfold out, match_markets.
  revert H. generalize (match_loop lower seq_ratio pms ops threshold ∅).
  generalize (∅ : gset string). clear out.
  intros used out H.
  induction H as [|? ? ? ? ? ? IH|? ? ? ? ? ? ? ? ? ? ? ? ? IH];
    [constructor|exact IH|constructor; [split; [assumption|reflexivity]|exact IH]].
Qed.

End Proofs.
End MatcherProofs.

(** ** Proofs: arbitrage scanner *)
Module ScannerProofs.
Import Pricing Matcher Stream Scanner.

Definition by_profit_desc (a b : ArbOpportunity) : Prop := profit_percent b <= profit_percent a.

Lemma insert_desc_perm x l : Permutation (insert_desc x l) (x :: l).
Proof.
  induction l as [|y l IH]; simpl; [reflexivity|].
  destruct (py_lt (profit_percent y) (profit_percent x)); [reflexivity|].
  rewrite IH. apply perm_swap.
Qed.

Lemma sort_desc_perm_aux l : forall acc,
  Permutation (fold_left (fun acc x => insert_desc x acc) l acc) (l ++ acc).
Proof.
  induction l as [|x l IH]; intros acc; simpl; [reflexivity|].
  rewrite IH, insert_desc_perm. symmetry. apply Permutation_middle.
Qed.

Lemma sort_desc_perm l : Permutation (sort_desc l) l.
Proof. unfold sort_desc. rewrite sort_desc_perm_aux, app_nil_r. reflexivity. Qed.

Lemma insert_desc_hd y x l :
  HdRel by_profit_desc y l -> by_profit_desc y x -> HdRel by_profit_desc y (insert_desc x l).
Proof.
  destruct l as [|z l]; simpl; intros H1 H2; [constructor; exact H2|].
  destruct (py_lt (profit_percent z) (profit_percent x)); constructor; [exact H2|].
  inversion H1; assumption.
Qed.

Lemma insert_desc_sorted x l :
  Sorted by_profit_desc l -> Sorted by_profit_desc (insert_desc x l).
Proof.
  induction 1 as [|y l Hs IH Hhd]; simpl; [repeat constructor|].
  destruct (py_lt (profit_percent y) (profit_percent x)) eqn:E.
  - apply PricingProofs.py_lt_true in E.
    constructor; [constructor; assumption|constructor; unfold by_profit_desc; lra].
  - constructor; [exact IH|]. apply insert_desc_hd; [exact Hhd|].
    unfold by_profit_desc. destruct (Qlt_le_dec (profit_percent y) (profit_percent x)) as [L|L];
      [apply PricingProofs.py_lt_true in L; congruence|exact L].
Qed.

Lemma sort_desc_sorted l : Sorted by_profit_desc (sort_desc l).
Proof.
  unfold sort_desc. assert (H : Sorted by_profit_desc []) by constructor.
  revert H. generalize (@nil ArbOpportunity).
  induction l as [|x l IH]; intros acc Hacc; simpl; [exact Hacc|].
  apply IH, insert_desc_sorted, Hacc.
Qed.

Lemma eval_route_some s p r books o :
  eval_route s p r books = Some o ->
  pair o = p /\ route o = r /\ cost o < 1 /\ profit_percent o = (1 - cost o) * 100.
Proof.
  destruct books as [pmb opb]. unfold eval_route.
  repeat match goal with |- context [if ?b then _ else _] => destruct b eqn:? end;
    intros H; try discriminate.
  injection H as <-. simpl. split; [reflexivity|split; [reflexivity|split; [|reflexivity]]].
  repeat match goal with H : (_ && _) = true |- _ => apply andb_prop in H; destruct H end.
  apply PricingProofs.py_lt_true. assumption.
Qed.

Lemma py_le_compat_r a b b' : b == b' -> py_le a b = py_le a b'.
Proof.
  intros H. destruct (py_le a b) eqn:E1, (py_le a b') eqn:E2; try reflexivity.
  - apply PricingProofs.py_le_true in E1. rewrite H in E1.
    apply PricingProofs.py_le_true in E1. congruence.
  - apply PricingProofs.py_le_true in E2. rewrite <- H in E2.
    apply PricingProofs.py_le_true in E2. congruence.
Qed.

Lemma eval_route_accepted s p r books :
  (exists o, eval_route s p r books = Some o) <-> route_accepted s books.
Proof.
  destruct books as [pmb opb]. unfold eval_route, route_accepted.
  rewrite <- !PricingProofs.py_le_true, <- !PricingProofs.py_lt_true.
  set (f1 := compute_fill pmb Buy (default_quote_size s)).
  set (f2 := compute_fill opb Buy (default_quote_size s)).
  assert (Hm : py_le (min_trade_size s) (py_min (filled_size f1) (filled_size f2))
             = py_le (min_trade_size s) (Qmin (filled_size f1) (filled_size f2))).
  { apply py_le_compat_r, PricingProofs.py_min_spec. }
  rewrite Hm. split.
  - intros [o H].
    repeat match goal with H : context [if ?b then _ else _] |- _ => destruct b eqn:? end;
      try discriminate.
    repeat match goal with H : (_ && _) = true |- _ => apply andb_prop in H; destruct H end.
    repeat split; assumption.
  - intros (A & B & C & D & E). rewrite A, B, C, D, E. simpl. eexists. reflexivity.
Qed.

Lemma in_scan_pair c st p o :
  In o (scan_pair c st p) ->
  pair o = p /\ eval_route (settings c) p (route o) (route_books c st p (route o)) = Some o.
Proof.
  unfold scan_pair. intros Hin. apply in_app_or in Hin.
  destruct Hin as [Hin|Hin];
    match type of Hin with In o (option_to_list ?e) =>
      destruct e as [o'|] eqn:E; simpl in Hin; [|contradiction] end;
    destruct Hin as [<-|[]];
    destruct (eval_route_some _ _ _ _ _ E) as (Hp & Hr & _); rewrite Hr; split; assumption.
Qed.

Section Proofs.
Variable lower : string -> string.
Variable seq_ratio : string -> string -> Q.

(** C1: for each matched pair and each route, [scan_once] emits an opportunity for
    that route exactly when the route meets the size, cost, profit and slippage
    gates; every emitted opportunity has cost below 1 and profit percent
    [(1 - cost) * 100]; the list is sorted by descending profit percent. *)
Theorem scan_once_routes (c : Clients) (limit : nat) (threshold : Q)
    (pm_state : option PolymarketStreamState) :
  let matched := match_markets lower seq_ratio
                   (pm_list_active_markets c limit) (op_list_active_markets c limit) threshold in
  let res := scan_once lower seq_ratio c limit threshold pm_state in
  (forall p r, In p matched ->
     ((exists o, In o res /\ pair o = p /\ route o = r) <->
      route_accepted (settings c) (route_books c pm_state p r))) /\
  (forall o, In o res ->
     In (pair o) matched /\ cost o < 1 /\ profit_percent o = (1 - cost o) * 100) /\
  Sorted by_profit_desc res.
Proof.
  intros matched res.
  assert (Hres : forall o, In o res <-> exists p, In p matched /\ In o (scan_pair c pm_state p)).
  { intros o. unfold res, scan_once. fold matched.
    split.
    - intros H. apply (Permutation_in _ (sort_desc_perm _)), in_flat_map in H. exact H.
    - intros H. apply (Permutation_in _ (Permutation_sym (sort_desc_perm _))), in_flat_map, H. }
  split; [|split].
  - intros p r Hp.
    transitivity (exists o, eval_route (settings c) p r (route_books c pm_state p r) = Some o);
      [|apply eval_route_accepted].
    split.
    + intros (o & Hin & <- & <-). apply Hres in Hin. destruct Hin as (p' & Hp' & Hin).
      destruct (in_scan_pair _ _ _ _ Hin) as [E1 E2]. exists o. subst p'. exact E2.
    + intros [o E]. exists o.
      destruct (eval_route_some _ _ _ _ _ E) as (Hp' & Hr & _).
      split; [|split; assumption].
      apply Hres. exists p. split; [exact Hp|].
      unfold scan_pair. apply in_or_app.
      destruct r; [left|right]; rewrite E; left; reflexivity.
  - intros o Hin. apply Hres in Hin. destruct Hin as (p & Hp & Hin).
    destruct (in_scan_pair _ _ _ _ Hin) as [E1 E2].
    destruct (eval_route_some _ _ _ _ _ E2) as (_ & _ & Hc & Hpr).
    rewrite E1. repeat split; assumption.
  - unfold res, scan_once. apply sort_desc_sorted.
Qed.

End Proofs.
End ScannerProofs.

(** ** Proofs: stream state, [append_last_trade] *)
Module StreamProofs.
Import Stream.

Example decimal_parsers_sample :
  decimal_float "0.51" = Some (51 # 100) /\ decimal_float "abc" = None /\
  decimal_int "1700000000123" = Some 1700000000123%Z /\ decimal_int "1.5" = None.
Proof. vm_compute. repeat split. Qed.

Lemma lastn_app_last {A} (n : nat) (l : list A) (x : A) :
  lastn n (lastn n l ++ [x]) = lastn n (l ++ [x]).
Proof.
  unfold lastn. destruct (Nat.le_gt_cases (length l) n) as [H|H].
  - replace (length l - n)%nat with 0%nat by lia. reflexivity.
  - rewrite !length_app, length_skipn. simpl.
    replace (length l - (length l - n) + 1 - n)%nat with 1%nat by lia.
    replace (length l + 1 - n)%nat with (1 + (length l - n))%nat by lia.
    rewrite <- skipn_skipn, (skipn_app (length l - n) l [x]).
    replace (length l - n - length l)%nat with 0%nat by lia. reflexivity.
Qed.

Lemma parse_trade_ok (str_to_float : string -> option Q)
    (str_to_int : string -> option Z) (scalar_repr : jval -> string)
    (data : message) (t : TE.TradeEvent) :
  parse_trade str_to_float str_to_int scalar_repr data = Ok t ->
  py_float str_to_float (py_or (dict_get data "size") (JFloat 0)) = Ok (TE.size t) /\
  py_float str_to_float (py_or (dict_get data "price") (JFloat 0)) = Ok (TE.price t) /\
  TE.notional t = TE.size t * TE.price t /\
  match dict_get data "timestamp" with
  | JNone => TE.timestamp t = 0%Z
  | v => exists i, py_int str_to_int v = Ok i /\ TE.timestamp t = Z.quot i 1000
  end.
Proof.
  unfold parse_trade.
  destruct (py_float str_to_float (py_or (dict_get data "size") (JFloat 0))) as [sz|];
    simpl; [|discriminate].
  destruct (py_float str_to_float (py_or (dict_get data "price") (JFloat 0))) as [pr|];
    simpl; [|discriminate].
  destruct (dict_get data "timestamp") as [| b | z | q | s0];
    [ intros H; injection H as <-; simpl; repeat split | ..];
    cbv zeta iota; intros H;
    [ .. | destruct (str_to_int s0) as [i|]; [| simpl in H; discriminate]];
    simpl in H; injection H as <-; simpl;
    (split; [reflexivity|split; [reflexivity|split; [reflexivity|]]]);
    eexists; split; reflexivity.
Qed.

(** C2 (counterexample): a last-trade message without a [size] field is not
    ignored; a trade of size 0 is appended to the condition's buffer. *)
Example append_missing_size_appends :
  trades_by_condition
    (append_last_trade decimal_float decimal_int repr_scalar (mkStreamState ∅ ∅ 200)
       [("asset_id", JStr "y1"); ("market", JStr "c1"); ("price", JFloat (1#2));
        ("timestamp", JInt 1700000000123)]) !! "c1"
  = Some (mkDeque [TE.mkTradeEvent "c1" "y1" "" 0 (1#2) (0 * (1#2)) 1700000000 "c1" None] 200)
  /\ trades_by_condition (mkStreamState ∅ ∅ 200) !! "c1" = None.
Proof. split; vm_compute; reflexivity. Qed.

(** C2 (amended): a message whose [size], [price] or [timestamp] conversion raises
    leaves the state unchanged; otherwise exactly one trade is appended to its
    condition's ring buffer (keeping the last [max_trades_per_market] events), with
    [size]/[price] as converted (0.0 when absent or falsy), the timestamp as the
    millisecond count divided by 1000 and truncated (0 when absent), and notional
    [size * price]; the books and the other buffers are unchanged. *)
Theorem append_last_trade_spec (str_to_float : string -> option Q)
    (str_to_int : string -> option Z) (scalar_repr : jval -> string)
    (st : PolymarketStreamState) (data : message) :
  let parse := parse_trade str_to_float str_to_int scalar_repr data in
  let st' := append_last_trade str_to_float str_to_int scalar_repr st data in
  ((exists e, parse = Raise e) -> st' = st) /\
  (forall t, parse = Ok t ->
     let M := max_trades_per_market st in
     let old := match trades_by_condition st !! TE.condition_id t with
                | Some b => items b | None => [] end in
     orderbooks st' = orderbooks st /\
     max_trades_per_market st' = M /\
     trades_by_condition st' =
       <[TE.condition_id t := mkDeque (lastn M (old ++ [t])) M]> (trades_by_condition st) /\
     py_float str_to_float (py_or (dict_get data "size") (JFloat 0)) = Ok (TE.size t) /\
     py_float str_to_float (py_or (dict_get data "price") (JFloat 0)) = Ok (TE.price t) /\
     (dict_get data "size" = JNone -> TE.size t = 0) /\
     (dict_get data "price" = JNone -> TE.price t = 0) /\
     (dict_get data "timestamp" = JNone -> TE.timestamp t = 0%Z) /\
     (forall i, py_int str_to_int (dict_get data "timestamp") = Ok i ->
        TE.timestamp t = Z.quot i 1000) /\
     TE.notional t = TE.size t * TE.price t).
Proof.
  intros parse st'. split.
  - intros [e He]. unfold st', append_last_trade. fold parse. rewrite He. reflexivity.
  - intros t Ht M old.
    pose proof (parse_trade_ok str_to_float str_to_int scalar_repr data t Ht)
      as (Es & Ep & En & Ets).
    unfold st', append_last_trade. fold parse. rewrite Ht. simpl.
    split; [reflexivity|split; [reflexivity|split]].
    + unfold old, M.
      destruct (trades_by_condition st !! TE.condition_id t) as [b|];
        [|change [] with (items default_deque)];
        (destruct (Nat.eqb (maxlen _) (max_trades_per_market st)) eqn:Em;
         [ apply Nat.eqb_eq in Em; unfold deque_append; rewrite Em; reflexivity
         | unfold deque_copy, deque_append; simpl; try rewrite lastn_app_last; reflexivity]).
    + split; [exact Es|split; [exact Ep|split; [|split; [|split; [|split]]]]].
      * intros Hn. rewrite Hn in Es. simpl in Es. congruence.
      * intros Hn. rewrite Hn in Ep. simpl in Ep. congruence.
      * intros Hn. rewrite Hn in Ets. exact Ets.
      * intros i Hi. destruct (dict_get data "timestamp");
          try (destruct Ets as (i' & Hi' & ->); congruence).
        discriminate.
      * exact En.
Qed.

End StreamProofs.

(** ** Proofs: rebalance monitor *)
Module RebalanceProofs.
Import Stream Rebalance.

Lemma py_lt_false x y : py_lt x y = false <-> y <= x.
Proof.
  unfold py_lt. rewrite <- Qle_bool_iff. destruct (Qle_bool y x); simpl; split; congruence.
Qed.

Lemma filter_perm {A} (f : A -> bool) (l l' : list A) :
  Permutation l l' -> Permutation (List.filter f l) (List.filter f l').
Proof.
  induction 1; simpl.
  - constructor.
  - destruct (f x); [constructor|]; assumption.
  - destruct (f x), (f y); try constructor; reflexivity.
  - etransitivity; eassumption.
Qed.

Lemma insert_signal_perm x l : Permutation (insert_signal x l) (x :: l).
Proof.
  induction l as [|y l IH]; simpl; [reflexivity|].
  destruct (signal_key_lt y x); [reflexivity|].
  rewrite IH. apply perm_swap.
Qed.

Lemma sort_signals_perm l : Permutation (sort_signals l) l.
Proof.
  unfold sort_signals.
  assert (H : forall acc, Permutation (fold_left (fun acc x => insert_signal x acc) l acc)
                                      (acc ++ l)).
  { induction l as [|x l IH]; intros acc; simpl.
    - rewrite app_nil_r. reflexivity.
    - rewrite IH, insert_signal_perm. simpl. apply Permutation_middle. }
  apply H.
Qed.

Lemma signals_for_app cid a b :
  signals_for cid (a ++ b) = signals_for cid a ++ signals_for cid b.
Proof. unfold signals_for. apply List.filter_app. Qed.

Lemma signals_for_sort cid l :
  Permutation (signals_for cid (sort_signals l)) (signals_for cid l).
Proof. apply filter_perm, sort_signals_perm. Qed.

Section Loop.
Variables (min_abs_move min_notional : Q) (max_age_seconds min_trades : Z).
Variable state : PolymarketStreamState.
Variable now_ts : Z.

Local Abbreviation process :=
  (process_market min_abs_move min_notional max_age_seconds min_trades state now_ts).
Local Abbreviation scan :=
  (scan_markets min_abs_move min_notional max_age_seconds min_trades state now_ts).

Lemma scan_app mon pre rest acc :
  scan mon (pre ++ rest) acc =
  match scan mon pre acc with
  | (Ok a, m1) => scan m1 rest a
  | (Raise e, m1) => (Raise e, m1)
  end.
Proof.
  revert mon acc. induction pre as [|m pre IH]; intros mon acc; simpl; [reflexivity|].
  destruct (process mon acc m) as [[a|e] m1]; [apply IH|reflexivity].
Qed.

(** A market of another condition id adds no signal for [cid] and leaves its baseline. *)
Lemma process_other cid mon acc m acc' mon' :
  condition_id m <> Some cid -> process mon acc m = (Ok acc', mon') ->
  signals_for cid acc' = signals_for cid acc /\
  baseline_yes mon' !! cid = baseline_yes mon !! cid.
Proof.
  intros Hc. unfold process_market.
  destruct (platform m); [|intros H; inversion H; subst; auto].
  destruct (negb (truthy_id (condition_id m)) || negb (truthy_id (yes_token_id m))) eqn:Et;
    [intros H; inversion H; subst; auto|].
  destruct (condition_id m) as [c|] eqn:Ec; [|discriminate].
  assert (Hne : c <> cid) by congruence.
  destruct (get_orderbook_for_market state m YES) as [book|];
    [|intros H; inversion H; subst; auto].
  destruct (estimate_yes_price book) as [cur|]; [|intros H; inversion H; subst; auto].
  unfold update_baseline. simpl.
  assert (Hb : forall b, baseline_yes (mkMonitor (<[c := b]> (baseline_yes mon)) (ema_alpha mon))
                         !! cid = baseline_yes mon !! cid).
  { intros b. simpl. apply lookup_insert_ne. congruence. }
  repeat match goal with
         | |- context [if ?b then _ else _] => destruct b
         | |- context [match py_last ?l with _ => _ end] => destruct (py_last l)
         end;
  intros H; inversion H; subst; auto; try discriminate.
  all: split; [|apply Hb];
    rewrite signals_for_app; unfold signals_for at 2; simpl;
    rewrite Ec, bool_decide_eq_false_2 by congruence; apply app_nil_r.
Qed.

Lemma process_ok mon acc m :
  (1 <= min_trades)%Z -> exists acc' mon', process mon acc m = (Ok acc', mon').
Proof.
  intros Hmin. unfold process_market.
  destruct (platform m); [|eauto].
  destruct (_ || _); [eauto|].
  destruct (get_orderbook_for_market state m YES) as [book|]; [|eauto].
  destruct (estimate_yes_price book) as [cur|]; [|eauto].
  unfold update_baseline. simpl.
  destruct (py_lt _ min_abs_move); [eauto|].
  destruct (Z.of_nat (length (get_last_trades state _ 50)) <? min_trades)%Z eqn:El; [eauto|].
  apply Z.ltb_ge in El.
  destruct (get_last_trades state _ 50) as [|t l] eqn:Etr; [simpl in El; lia|].
  unfold py_last. simpl. destruct (rev l ++ [t]) as [|a r] eqn:Er.
  - destruct (rev l); discriminate.
  - repeat match goal with |- context [if ?b then _ else _] => destruct b end; eauto.
Qed.

Lemma scan_free cid l mon acc res mon' :
  Forall (fun m => condition_id m <> Some cid) l ->
  scan mon l acc = (Ok res, mon') ->
  signals_for cid res = signals_for cid acc /\
  baseline_yes mon' !! cid = baseline_yes mon !! cid.
Proof.
  intros Hf. revert mon acc. induction Hf as [|m l Hm Hf IH]; intros mon acc; simpl.
  - intros H. inversion H; subst. auto.
  - destruct (process mon acc m) as [[a|e] m1] eqn:Ep; [|discriminate].
    intros H. destruct (IH _ _ H) as [H1 H2].
    destruct (process_other cid mon acc m a m1 Hm Ep) as [H3 H4].
    split; congruence.
Qed.

Lemma scan_ok l mon acc :
  (1 <= min_trades)%Z -> exists res mon', scan mon l acc = (Ok res, mon').
Proof.
  intros Hmin. revert mon acc. induction l as [|m l IH]; intros mon acc; simpl; [eauto|].
  destruct (process_ok mon acc m Hmin) as (a & m1 & ->). apply IH.
Qed.

Lemma process_alpha mon acc m r mon' :
  process mon acc m = (r, mon') -> ema_alpha mon' = ema_alpha mon.
Proof.
  unfold process_market, update_baseline. cbv beta iota zeta.
  repeat match goal with
         | |- context [match ?x with _ => _ end] => destruct x
         | |- context [if ?b then _ else _] => destruct b
         end; intros H; inversion H; reflexivity.
Qed.

Lemma scan_alpha l mon acc r mon' :
  scan mon l acc = (r, mon') -> ema_alpha mon' = ema_alpha mon.
Proof.
  revert mon acc. induction l as [|m l IH]; intros mon acc; simpl.
  - intros H. inversion H. reflexivity.
  - destruct (process mon acc m) as [[a|e] m1] eqn:Ep; intros H.
    + rewrite (IH _ _ H). exact (process_alpha _ _ _ _ _ Ep).
    + inversion H; subst. exact (process_alpha _ _ _ _ _ Ep).
Qed.

(** A market whose condition id has no baseline yet only seeds it. *)
Lemma process_first cid mon acc m acc' mon' :
  0 < min_abs_move -> condition_id m = Some cid -> baseline_yes mon !! cid = None ->
  process mon acc m = (Ok acc', mon') -> acc' = acc.
Proof.
  intros Hpos Hc Hn. unfold process_market.
  destruct (platform m); [|intros H; inversion H; subst; auto].
  destruct (_ || _); [intros H; inversion H; subst; auto|].
  rewrite Hc.
  destruct (get_orderbook_for_market state m YES) as [book|];
    [|intros H; inversion H; subst; auto].
  destruct (estimate_yes_price book) as [cur|]; [|intros H; inversion H; subst; auto].
  unfold update_baseline. rewrite Hn. cbv beta iota zeta.
  assert (Hlt : py_lt (Qabs (cur - cur)) min_abs_move = true).
  { apply PricingProofs.py_lt_true. assert (E : cur - cur == 0) by ring.
    rewrite E. simpl. exact Hpos. }
  rewrite Hlt. intros H. inversion H; subst. reflexivity.
Qed.

(** The market of [cid], past the seeding pass, with a large enough move and a
    large, recent enough last trade, appends its signal. *)
Lemma process_signal cid mon acc m book cur prev lt :
  platform m = POLYMARKET -> condition_id m = Some cid -> cid <> ""%string ->
  truthy_id (yes_token_id m) = true ->
  get_orderbook_for_market state m YES = Some book ->
  estimate_yes_price book = Some cur ->
  baseline_yes mon !! cid = Some prev ->
  let baseline := ema_alpha mon * cur + (1 - ema_alpha mon) * prev in
  min_abs_move <= Qabs (cur - baseline) ->
  (min_trades <= Z.of_nat (length (get_last_trades state cid 50)))%Z ->
  py_last (get_last_trades state cid 50) = Ok lt ->
  (0 <= now_ts - TE.timestamp lt <= max_age_seconds)%Z ->
  min_notional <= TE.notional lt ->
  exists mon', process mon acc m =
    (Ok (acc ++ [mkSignal m (if py_lt 0 (cur - baseline) then "short_yes" else "short_no")
                   cur baseline (cur - baseline) (TE.notional lt) max_age_seconds]), mon').
Proof.
  intros Hp Hc Hcid Hy Hb Hcur Hprev baseline Hmove Hlen Hlast Hage Hnot.
  unfold process_market. rewrite Hp, Hc, Hy. unfold truthy_id.
  destruct (String.eqb cid "") eqn:Ee; [apply String.eqb_eq in Ee; contradiction|].
  cbv beta iota zeta delta [negb orb].
  rewrite Hb, Hcur. unfold update_baseline. rewrite Hprev. cbv beta iota zeta. fold baseline.
  rewrite (proj2 (py_lt_false _ _) Hmove).
  replace (Z.of_nat (length (get_last_trades state cid 50)) <? min_trades)%Z with false
    by (symmetry; apply Z.ltb_ge; exact Hlen).
  rewrite Hlast.
  destruct (now_ts - TE.timestamp lt <? 0)%Z eqn:E1; [apply Z.ltb_lt in E1; lia|].
  destruct (max_age_seconds <? now_ts - TE.timestamp lt)%Z eqn:E2;
    [apply Z.ltb_lt in E2; lia|].
  rewrite (proj2 (py_lt_false _ _) Hnot). eexists. reflexivity.
Qed.
End Loop.

Lemma markets_with_split cid l :
  (markets_with cid l <= 1)%nat ->
  Forall (fun m => condition_id m <> Some cid) l \/
  exists pre m post, l = pre ++ m :: post /\ condition_id m = Some cid /\
    Forall (fun m => condition_id m <> Some cid) pre /\
    Forall (fun m => condition_id m <> Some cid) post.
Proof.
  unfold markets_with. induction l as [|m l IH]; simpl; intros H; [left; constructor|].
  destruct (bool_decide (condition_id m = Some cid)) eqn:Eb.
  - apply bool_decide_eq_true in Eb. simpl in H. right. exists [], m, l.
    split; [reflexivity|split; [exact Eb|split; [constructor|]]].
    apply List.Forall_forall. intros x Hx Hxc.
    assert (In x (List.filter (fun m => bool_decide (condition_id m = Some cid)) l))
      by (apply filter_In; split; [exact Hx|apply bool_decide_eq_true; exact Hxc]).
    destruct (List.filter _ l); simpl in *; [contradiction|lia].
  - apply bool_decide_eq_false in Eb. destruct (IH H) as [Hf|(pre & x & post & -> & Hx & H1 & H2)].
    + left. constructor; assumption.
    + right. exists (m :: pre), x, post. repeat split; try assumption. constructor; assumption.
Qed.

Lemma scan_cons (min_abs_move min_notional : Q) (max_age_seconds min_trades : Z) state now_ts
    mon m rest acc :
  scan_markets min_abs_move min_notional max_age_seconds min_trades state now_ts mon (m :: rest) acc =
  match process_market min_abs_move min_notional max_age_seconds min_trades state now_ts mon acc m with
  | (Ok acc', mon') =>
      scan_markets min_abs_move min_notional max_age_seconds min_trades state now_ts mon' rest acc'
  | (Raise e, mon') => (Raise e, mon')
  end.
Proof. reflexivity. Qed.

Lemma signals_for_sort_nil cid l : signals_for cid l = [] -> signals_for cid (sort_signals l) = [].
Proof.
  intros H. apply Permutation_nil. rewrite <- H. symmetry. apply signals_for_sort.
Qed.

(** C10: without [now], [detect_signals] raises TypeError ([datetime.replace] has no
    [tz] keyword) before looking at any market, the monitor left as it was; a result
    is returned only for a caller-supplied [now]. *)
Theorem detect_signals_default_now_raises (mon : RebalanceMonitor)
    (st : PolymarketStreamState) (markets : list Market) (min_abs_move min_notional : Q)
    (max_age_seconds min_trades : Z) (clock : Q) :
  detect_signals mon st markets min_abs_move min_notional max_age_seconds min_trades None clock
    = (Raise TypeError, mon) /\
  (forall now res mon',
     detect_signals mon st markets min_abs_move min_notional max_age_seconds min_trades now clock
       = (Ok res, mon') ->
     exists t, now = Some t).
Proof.
  split; [reflexivity|].
  intros [t|] res mon' H; [eauto|discriminate].
Qed.

(** C4 (counterexample): with [min_abs_move = 0] the pass that seeds the baseline of
    [c1] (no baseline before) emits a signal for it, of direction [short_no]. *)
Example detect_signals_first_pass_emits :
  baseline_yes (mkMonitor ∅ (1#5)) !! "c1"%string = None /\
  exists s,
    fst (detect_signals (mkMonitor ∅ (1#5))
           (mkStreamState
              (<["y1" := mkBook [mkLevel (49#100) 100] [mkLevel (51#100) 100]]> ∅)
              (<["c1" := mkDeque [TE.mkTradeEvent "c1" "y1" "BUY" 2000 (1#2) 1000 1000
                                    "c1" None] 200]> ∅)
              200)
           [mkMarket POLYMARKET "m1" "Rain?" (Some "c1") (Some "y1") (Some "n1")]
           0 500 300 1 (Some 1000) 0) = Ok [s] /\
    market s = mkMarket POLYMARKET "m1" "Rain?" (Some "c1") (Some "y1") (Some "n1") /\
    direction s = "short_no"%string.
Proof.
  split; [reflexivity|]. vm_compute. eexists. split; [reflexivity|split; reflexivity].
Qed.

(** C4 (amended): (1) with [min_abs_move > 0], a pass over a market list holding at
    most one market of condition id [cid], whose baseline is not yet seeded, emits no
    signal for [cid]; (2) a pass given [now], over a list holding exactly one market of
    the non-empty condition id [cid], that market being a Polymarket market with a
    truthy YES token and a book with a price estimate, with a seeded baseline,
    [|current - baseline| >= min_abs_move], [1 <= min_trades <= n] where [n] is the
    number of trades [get_last_trades(cid, 50)] returns (the stored trades of [cid],
    at most the last 50), the last of those trades of age in [[0, max_age_seconds]]
    and of notional at least [min_notional], returns exactly one signal for [cid],
    for that market, with [delta = current - baseline] (the EMA update), direction
    [short_yes] when [delta > 0] and [short_no] otherwise. *)
Theorem detect_signals_seed_then_signal :
  (forall mon st markets min_abs_move min_notional max_age_seconds min_trades now clock
          cid res mon',
     0 < min_abs_move -> baseline_yes mon !! cid = None ->
     (markets_with cid markets <= 1)%nat ->
     detect_signals mon st markets min_abs_move min_notional max_age_seconds min_trades now
       clock = (Ok res, mon') ->
     signals_for cid res = []) /\
  (forall mon st markets min_abs_move min_notional max_age_seconds min_trades t clock
          m cid book cur prev lt,
     platform m = POLYMARKET -> condition_id m = Some cid -> cid <> ""%string ->
     truthy_id (yes_token_id m) = true ->
     In m markets -> markets_with cid markets = 1%nat ->
     get_orderbook_for_market st m YES = Some book ->
     estimate_yes_price book = Some cur ->
     baseline_yes mon !! cid = Some prev ->
     min_abs_move <= Qabs (cur - (ema_alpha mon * cur + (1 - ema_alpha mon) * prev)) ->
     (1 <= min_trades <= Z.of_nat (length (get_last_trades st cid 50)))%Z ->
     py_last (get_last_trades st cid 50) = Ok lt ->
     (0 <= q_trunc t - TE.timestamp lt <= max_age_seconds)%Z ->
     min_notional <= TE.notional lt ->
     exists res mon' s,
       detect_signals mon st markets min_abs_move min_notional max_age_seconds min_trades
         (Some t) clock = (Ok res, mon') /\
       signals_for cid res = [s] /\ market s = m /\ current_yes s = cur /\
       signal_baseline_yes s = ema_alpha mon * cur + (1 - ema_alpha mon) * prev /\
       delta s = current_yes s - signal_baseline_yes s /\
       (0 < delta s -> direction s = "short_yes"%string) /\
       (delta s <= 0 -> direction s = "short_no"%string)).
Proof.
  split.
  - intros mon st markets ama mn mas mt now clock cid res mon' Hpos Hn Hle H.
    unfold detect_signals in H.
    destruct (match now with None => datetime_replace clock ["tz"%string] | Some t => Ok t end)
      as [t|e]; [|discriminate].
    destruct (scan_markets ama mn mas mt st (q_trunc t) mon markets []) as [[r|e] m1] eqn:Es;
      [|discriminate].
    inversion H; subst. apply signals_for_sort_nil.
    destruct (markets_with_split cid markets Hle) as [Hf|(pre & m & post & -> & Hc & Hpre & Hpost)].
    + exact (proj1 (scan_free _ _ _ _ _ _ cid _ _ _ _ _ Hf Es)).
    + rewrite scan_app in Es.
      destruct (scan_markets ama mn mas mt st (q_trunc t) mon pre []) as [[a|e] m2] eqn:Ep;
        [|discriminate].
      rewrite scan_cons in Es.
      destruct (process_market ama mn mas mt st (q_trunc t) m2 a m) as [[a2|e] m3] eqn:Eq;
        [|discriminate].
      destruct (scan_free _ _ _ _ _ _ cid _ _ _ _ _ Hpre Ep) as [Ha Hb].
      pose proof (process_first _ _ _ _ _ _ cid _ _ _ _ _ Hpos Hc (eq_trans Hb Hn) Eq) as ->.
      rewrite (proj1 (scan_free _ _ _ _ _ _ cid _ _ _ _ _ Hpost Es)). exact Ha.
  - intros mon st markets ama mn mas mt t clock m cid book cur prev lt
      Hp Hc Hcid Hy Hin Hcnt Hb Hcur Hprev Hmove Hmt Hlast Hage Hnot.
    destruct (markets_with_split cid markets ltac:(lia))
      as [Hf|(pre & x & post & -> & Hx & Hpre & Hpost)].
    { exfalso. apply List.Forall_forall with (x := m) in Hf; auto. }
    assert (x = m) as ->.
    { apply in_app_iff in Hin. destruct Hin as [Hin|[->|Hin]]; [|reflexivity|].
      - apply List.Forall_forall with (x := m) in Hpre; [contradiction|exact Hin].
      - apply List.Forall_forall with (x := m) in Hpost; [contradiction|exact Hin]. }
    unfold detect_signals. cbv beta iota zeta.
    rewrite scan_app.
    destruct (scan_ok ama mn mas mt st (q_trunc t) pre mon [] ltac:(lia)) as (a & m1 & Ep).
    rewrite Ep. rewrite scan_cons.
    destruct (scan_free _ _ _ _ _ _ cid _ _ _ _ _ Hpre Ep) as [Ha Hb1].
    pose proof (scan_alpha _ _ _ _ _ _ _ _ _ _ _ Ep) as Halpha.
    rewrite <- Halpha in Hmove.
    destruct (process_signal ama mn mas mt st (q_trunc t) cid m1 a m book cur prev lt
                Hp Hc Hcid Hy Hb Hcur (eq_trans Hb1 Hprev) Hmove ltac:(lia) Hlast Hage Hnot)
      as [m2 Eq].
    rewrite Eq.
    set (s := mkSignal m _ cur _ _ (TE.notional lt) mas).
    destruct (scan_ok ama mn mas mt st (q_trunc t) post m2 (a ++ [s]) ltac:(lia))
      as (r & m3 & Epost).
    rewrite Epost.
    exists (sort_signals r), m3, s. split; [reflexivity|].
    split.
    { apply Permutation_length_1_inv. symmetry.
      rewrite signals_for_sort.
      rewrite (proj1 (scan_free _ _ _ _ _ _ cid _ _ _ _ _ Hpost Epost)).
      rewrite signals_for_app, Ha. unfold signals_for. simpl.
      rewrite Hc, bool_decide_eq_true_2 by reflexivity. reflexivity. }
    subst s. simpl. rewrite Halpha.
    split; [reflexivity|split; [reflexivity|split; [reflexivity|split; [reflexivity|split]]]].
    + intros Hd. rewrite (proj2 (PricingProofs.py_lt_true _ _) Hd). reflexivity.
    + intros Hd. rewrite (proj2 (py_lt_false _ _) Hd). reflexivity.
Qed.

(** Both parts of [detect_signals_seed_then_signal] applied to concrete inputs. *)
Lemma detect_signals_seed_then_signal_witness :
  signals_for "c1" [] = [] /\
  exists res mon' s,
    detect_signals (mkMonitor (<["c1" := 1#2]> ∅) (1#5))
      (mkStreamState
         (<["y1" := mkBook [mkLevel (9#10) 100] [mkLevel (9#10) 100]]> ∅)
         (<["c1" := mkDeque [TE.mkTradeEvent "c1" "y1" "BUY" 2000 (1#2) 1000 1000
                               "c1" None] 200]> ∅)
         200)
      [mkMarket POLYMARKET "m1" "Rain?" (Some "c1") (Some "y1") (Some "n1")]
      (3#20) 500 300 1 (Some 1000) 0 = (Ok res, mon') /\
    signals_for "c1" res = [s] /\
    market s = mkMarket POLYMARKET "m1" "Rain?" (Some "c1") (Some "y1") (Some "n1") /\
    current_yes s = ((9#10) + (9#10)) / 2 /\
    signal_baseline_yes s = (1#5) * (((9#10) + (9#10)) / 2) + (1 - (1#5)) * (1#2) /\
    delta s = current_yes s - signal_baseline_yes s /\
    (0 < delta s -> direction s = "short_yes"%string) /\
    (delta s <= 0 -> direction s = "short_no"%string).
Proof.
  split.
  - apply (proj1 detect_signals_seed_then_signal
             (mkMonitor ∅ (1#5))
             (mkStreamState
                (<["y1" := mkBook [mkLevel (9#10) 100] [mkLevel (9#10) 100]]> ∅)
                (<["c1" := mkDeque [TE.mkTradeEvent "c1" "y1" "BUY" 2000 (1#2) 1000 1000
                                      "c1" None] 200]> ∅)
                200)
             [mkMarket POLYMARKET "m1" "Rain?" (Some "c1") (Some "y1") (Some "n1")]
             (3#20) 500 300%Z 1%Z (Some 1000) 0 "c1" [] (mkMonitor (<["c1" := ((9#10) + (9#10)) / 2]> ∅) (1#5)));
      [reflexivity|reflexivity|vm_compute; lia|vm_compute; reflexivity].
  - apply (proj2 detect_signals_seed_then_signal
             (mkMonitor (<["c1" := 1#2]> ∅) (1#5))
             (mkStreamState
                (<["y1" := mkBook [mkLevel (9#10) 100] [mkLevel (9#10) 100]]> ∅)
                (<["c1" := mkDeque [TE.mkTradeEvent "c1" "y1" "BUY" 2000 (1#2) 1000 1000
                                      "c1" None] 200]> ∅)
                200)
             [mkMarket POLYMARKET "m1" "Rain?" (Some "c1") (Some "y1") (Some "n1")]
             (3#20) 500 300%Z 1%Z 1000 0
             (mkMarket POLYMARKET "m1" "Rain?" (Some "c1") (Some "y1") (Some "n1")) "c1"
             (mkBook [mkLevel (9#10) 100] [mkLevel (9#10) 100]) (((9#10) + (9#10)) / 2) (1#2)
             (TE.mkTradeEvent "c1" "y1" "BUY" 2000 (1#2) 1000 1000 "c1" None));
      try reflexivity; try (vm_compute; reflexivity).
    all: try discriminate; try (left; reflexivity).
    all: split; vm_compute; congruence.
Defined.

End RebalanceProofs.

(** ** Proofs: barrier pricing *)
Module BarrierProofs.
Import Barrier.
Local Open Scope R_scope.

Lemma py_sqrt_ok x : 0 <= x -> py_sqrt x = Ok (sqrt x).
Proof. intros H. unfold py_sqrt. destruct (Rlt_dec x 0); [exfalso; Lra.lra|reflexivity]. Qed.

Lemma py_log_ok x : 0 < x -> py_log x = Ok (ln x).
Proof. intros H. unfold py_log. destruct (Rle_dec x 0); [exfalso; Lra.lra|reflexivity]. Qed.

Lemma py_div_ok x y : y <> 0 -> py_div x y = Ok (x / y).
Proof. intros H. unfold py_div. destruct (Req_EM_T y 0); [contradiction|reflexivity]. Qed.

Lemma py_pow_overflow x y : 2 ^ 1024 <= Rpower x y -> py_pow x y = Raise OverflowError.
Proof. intros H. unfold py_pow. destruct (Rle_dec (2 ^ 1024) (Rpower x y)); [reflexivity|contradiction]. Qed.

Ltac bind_step := unfold bind; cbv beta iota zeta.

(** C6 (code bug): for spot 100, an up barrier at 1000, one year, volatility 0.02 and
    drift 0.1, [kappa = 2 * mu / sigma^2 = 500] and [(barrier / spot) ** kappa = 10^500]
    exceeds the largest double: [one_touch_prob] and [no_touch_prob] raise
    OverflowError instead of returning a probability, whatever [math.erf] returns. *)
Theorem one_touch_prob_overflow (erf : R -> R) :
  one_touch_prob erf 100 1000 1 (2/100) (1/10) "up" = Raise OverflowError /\
  no_touch_prob erf 100 1000 1 (2/100) (1/10) "up" = Raise OverflowError.
Proof.
  assert (H : one_touch_prob erf 100 1000 1 (2/100) (1/10) "up" = Raise OverflowError).
  { unfold one_touch_prob.
    destruct (Rle_dec 100 0); [exfalso; Lra.lra|].
    destruct (Rle_dec 1000 0); [exfalso; Lra.lra|].
    destruct (Rle_dec 1 0); [exfalso; Lra.lra|].
    destruct (Rle_dec (2/100) 0); [exfalso; Lra.lra|].
    rewrite (py_sqrt_ok 1) by Lra.lra. rewrite sqrt_1.
    change (String.eqb "up" "down") with false.
    bind_step.
    rewrite (py_div_ok 100 1000) by Lra.lra. bind_step.
    rewrite (py_log_ok (100 / 1000)) by Lra.lra. bind_step.
    destruct (Req_EM_T (2 / 100 * 1) 0); [exfalso; Lra.lra|].
    rewrite !py_div_ok by Lra.lra. bind_step.
    destruct (Rlt_dec 0 (2 / 100)); [|exfalso; Lra.lra].
    bind_step.
    rewrite py_pow_overflow; [reflexivity|].
    replace (1000 / 100) with 10 by field.
    replace (2 * (1 / 10) / (2 / 100 * (2 / 100))) with (INR 500)
      by (rewrite INR_IZR_INZ; simpl; field).
    rewrite Rpower_pow by Lra.lra.
    rewrite !pow_IZR. apply IZR_le. vm_compute. discriminate. }
  split; [exact H|].
  unfold no_touch_prob. rewrite H. reflexivity.
Qed.

End BarrierProofs.

(** ** Proofs: hedge scanner *)
Module HedgeProofs.
Import Hedge.
Local Open Scope R_scope.

(** C3 (code bug): with [use_realized_vol] on, the first mapping whose market is
    listed and whose mark price is fetched makes [scan_hedged_opportunities] raise
    NameError: [vol_cache] is not a global of the module.  This holds whatever the
    pricing part of the loop, the sort, the defaults and the other mappings. *)
Theorem scan_hedged_realized_vol_name_error (HO : Type)
    (price_mapping : HedgeMarketConfig -> Market -> Quote -> R -> R -> result (option HO))
    (sort_by_abs_edge : list HO -> list HO) (c : HedgeClients)
    (default_vol : R) (vol_timeframe_default : string)
    (vol_lookback_days_default vol_max_candles pm_limit : Z)
    (pms : list Market) (mp : HedgeMarketConfig) (rest : list HedgeMarketConfig)
    (market : Market) (quote : Quote) (spot : R)
    (Hpm : pm_list_active_markets c pm_limit = Ok pms)
    (Hidx : build_index pms !! hm_market_id mp = Some market)
    (Hq : get_best_prices c market = Ok quote)
    (Hs : fetch_mark_price c (underlying_symbol mp) = Ok spot) :
  scan_hedged_opportunities HO price_mapping sort_by_abs_edge c default_vol true
    vol_timeframe_default vol_lookback_days_default vol_max_candles pm_limit (mp :: rest)
  = Raise NameError.
Proof.
  unfold scan_hedged_opportunities. rewrite Hpm. cbn [bind]. cbv zeta.
  cbn [scan_mappings]. unfold scan_mapping. rewrite Hidx. cbn [bind].
  rewrite Hq. cbn [bind]. rewrite Hs. reflexivity.
Qed.

(** [scan_hedged_realized_vol_name_error] on one listed market and one mapping. *)
Lemma scan_hedged_realized_vol_name_error_witness :
  scan_hedged_opportunities unit (fun _ _ _ _ _ => Ok None) (fun l => l)
    (mkHedgeClients
       (fun _ => Ok [mkMarket POLYMARKET "m1" "BTC above 100k?" (Some "c1") (Some "y1") (Some "n1")])
       (fun _ => Ok (1/2, 1/2)) (fun _ => Ok 100) (fun _ _ _ _ => Ok (Some (1/2))))
    1 true "1h" 7 500 200
    [mkHedgeMarketConfig "m1" "BTC/USDT:USDT" 100000 "2030-01-01T00:00:00Z" true None
       "digital" "up" 0 None None]
  = Raise NameError.
Proof.
  apply scan_hedged_realized_vol_name_error with
    (pms := [mkMarket POLYMARKET "m1" "BTC above 100k?" (Some "c1") (Some "y1") (Some "n1")])
    (market := mkMarket POLYMARKET "m1" "BTC above 100k?" (Some "c1") (Some "y1") (Some "n1"))
    (quote := (1/2, 1/2)) (spot := 100); reflexivity.
Defined.

End HedgeProofs.

Module StreamBookProofs.
Import Stream StreamBook.

Lemma collect_levels_acc (f : string -> option Q) es acc :
  fold_left (fun acc entry =>
               match to_level f entry with Some level => acc ++ [level] | None => acc end)
            es acc = acc ++ collect_levels f es.
Proof.
  unfold collect_levels. revert acc. induction es as [|e es IH]; intros acc; simpl.
  - symmetry. apply app_nil_r.
  - rewrite IH. destruct (to_level f e); simpl.
    + rewrite (IH [o]). rewrite app_assoc. reflexivity.
    + rewrite (IH []). reflexivity.
Qed.

Lemma collect_levels_cons (f : string -> option Q) e es :
  collect_levels f (e :: es) =
  match to_level f e with Some l => [l] | None => [] end ++ collect_levels f es.
Proof.
  unfold collect_levels at 1. simpl. rewrite collect_levels_acc.
  destruct (to_level f e); reflexivity.
Qed.

(** After a book snapshot for [asset_id], the book looked up for a market side is the parsed snapshot when the side's token is [asset_id] (non-empty), and is unchanged otherwise; trade buffers and the buffer bound are untouched. *)
Theorem apply_book_snapshot_lookup (f : string -> option Q) (st : PolymarketStreamState)
    (asset_id : string) (bids asks : list wsval) (m : Market) (side : OutcomeSide) :
  let st' := apply_book_snapshot f st asset_id bids asks in
  let token := match side with YES => yes_token_id m | NO => no_token_id m end in
  get_orderbook_for_market st' m side =
    (if bool_decide (token = Some asset_id) then
       if String.eqb asset_id "" then None
       else Some (mkBook (collect_levels f bids) (collect_levels f asks))
     else get_orderbook_for_market st m side) /\
  trades_by_condition st' = trades_by_condition st /\
  max_trades_per_market st' = max_trades_per_market st.
Proof.
  intros st' token. split; [|split; reflexivity].
  unfold get_orderbook_for_market. fold token.
  destruct token as [t|].
  - case_bool_decide as Ht.
    + injection Ht as ->. destruct (String.eqb asset_id ""); [reflexivity|].
      simpl. apply lookup_insert_eq.
    + destruct (String.eqb t ""); [reflexivity|]. simpl.
      apply lookup_insert_ne. congruence.
  - rewrite bool_decide_eq_false_2 by discriminate. reflexivity.
Qed.

(** Levels encoded as feed entries, either as dicts with [price] and [size] or as [price, size] lists of floats, are parsed back to exactly the same levels, in order. *)
Theorem collect_levels_roundtrip (f : string -> option Q) (ls : list OrderBookLevel) :
  collect_levels f
    (map (fun l => WDict [("price", WScalar (JFloat (price l)));
                          ("size", WScalar (JFloat (size l)))]) ls) = ls /\
  collect_levels f
    (map (fun l => WList [WScalar (JFloat (price l)); WScalar (JFloat (size l))]) ls) = ls.
Proof.
  split; induction ls as [|[p s] ls IH]; try reflexivity;
    simpl map; rewrite collect_levels_cons, IH; reflexivity.
Qed.

(** Every level kept by [_to_level] comes from an input entry: a dict whose [price] and [size] convert to the level's price and size, or a list of at least two items whose first two items convert to them. *)
Theorem collect_levels_sound (f : string -> option Q) (entries : list wsval) l :
  In l (collect_levels f entries) ->
  exists entry, In entry entries /\
    ((exists d, entry = WDict d /\
       ws_float f (ws_get d "price") = Ok (price l) /\
       ws_float f (ws_get d "size") = Ok (size l)) \/
     (exists p s rest, entry = WList (p :: s :: rest) /\
       ws_float f p = Ok (price l) /\ ws_float f s = Ok (size l))).
Proof.
  induction entries as [|e es IH]; [intros []|].
  rewrite collect_levels_cons. intros Hin. apply in_app_or in Hin as [Hin|Hin].
  - exists e. split; [left; reflexivity|].
    destruct (to_level f e) as [l'|] eqn:Et; [|destruct Hin].
    destruct Hin as [<-|[]].
    destruct e as [v|lst|d]; simpl in Et; [discriminate| |].
    + destruct lst as [|p [|s rest]]; try discriminate.
      right. exists p, s, rest. split; [reflexivity|].
      unfold level_of in Et.
      destruct (ws_float f p); [|discriminate]. destruct (ws_float f s); [|discriminate].
      injection Et as <-. split; reflexivity.
    + left. exists d. split; [reflexivity|].
      destruct (ws_is_none _ || ws_is_none _); [discriminate|].
      unfold level_of in Et.
      destruct (ws_float f (ws_get d "price")); [|discriminate].
      destruct (ws_float f (ws_get d "size")); [|discriminate].
      injection Et as <-. split; reflexivity.
  - destruct (IH Hin) as (entry & H1 & H2). exists entry. split; [right; exact H1|exact H2].
Qed.

Lemma py_slice_from_neg {A} (l : list A) (k : Z) :
  (1 <= k)%Z -> py_slice_from l (- k) = lastn (Z.to_nat k) l.
Proof.
  intros Hk. unfold py_slice_from, lastn.
  replace (- k <? 0)%Z with true by (symmetry; apply Z.ltb_lt; lia).
  f_equal. lia.
Qed.

Lemma py_slice_from_nonneg {A} (l : list A) (k : Z) :
  (0 <= k)%Z -> py_slice_from l k = skipn (Z.to_nat k) l.
Proof.
  intros Hk. unfold py_slice_from.
  replace (k <? 0)%Z with false by (symmetry; apply Z.ltb_ge; lia).
  destruct (Z.le_gt_cases k (Z.of_nat (length l))) as [H|H].
  - rewrite Z.min_l by lia. reflexivity.
  - rewrite Z.min_r by lia. rewrite Nat2Z.id, skipn_all.
    symmetry. apply skipn_all2. lia.
Qed.

(** [list(buf)[-limit:]]: for a positive limit the last [limit] trades (the same as the nat model), for limit 0 the whole buffer, and for a negative limit the buffer without its first [|limit|] trades. *)
Theorem get_last_trades_int_window (st : PolymarketStreamState) (cid : string) (limit : Z) :
  let l := match trades_by_condition st !! cid with Some b => items b | None => [] end in
  ((1 <= limit)%Z ->
     get_last_trades_int st cid limit = lastn (Z.to_nat limit) l /\
     get_last_trades_int st cid limit = get_last_trades st cid (Z.to_nat limit)) /\
  (limit = 0%Z -> get_last_trades_int st cid limit = l) /\
  ((limit < 0)%Z -> get_last_trades_int st cid limit = skipn (Z.to_nat (- limit)) l).
Proof.
  intros l. unfold l, get_last_trades_int, get_last_trades.
  destruct (trades_by_condition st !! cid) as [b|]; [|repeat split; intros; rewrite ?skipn_nil; reflexivity].
  destruct (items b) as [|t ts] eqn:Ei.
  - repeat split; intros; rewrite ?skipn_nil; reflexivity.
  - split; [|split].
    + intros H. rewrite py_slice_from_neg by lia. split; reflexivity.
    + intros ->. apply py_slice_from_nonneg. lia.
    + intros H. apply py_slice_from_nonneg. lia.
Qed.


Lemma append_last_trade_raise (f : string -> option Q) (i : string -> option Z)
    (r : jval -> string) st data e :
  parse_trade f i r data = Raise e -> append_last_trade f i r st data = st.
Proof. intros H. unfold append_last_trade. rewrite H. reflexivity. Qed.

Lemma append_last_trade_ok (f : string -> option Q) (i : string -> option Z)
    (r : jval -> string) st data t :
  parse_trade f i r data = Ok t ->
  let M := max_trades_per_market st in
  let old := match trades_by_condition st !! TE.condition_id t with
             | Some b => items b | None => [] end in
  append_last_trade f i r st data =
  mkStreamState (orderbooks st)
    (<[TE.condition_id t := mkDeque (lastn M (old ++ [t])) M]> (trades_by_condition st)) M.
Proof.
  intros H M old. unfold append_last_trade. rewrite H. cbv zeta. f_equal. f_equal.
  unfold old, M.
  destruct (trades_by_condition st !! TE.condition_id t) as [b|];
    [|change [] with (items default_deque)];
    (destruct (Nat.eqb (maxlen _) (max_trades_per_market st)) eqn:Em;
     [ apply Nat.eqb_eq in Em; unfold deque_append; rewrite Em; reflexivity
     | unfold deque_copy, deque_append; simpl;
       rewrite ?(StreamProofs.lastn_app_last (max_trades_per_market st)); reflexivity]).
Qed.

Lemma length_lastn {A} (n : nat) (l : list A) : (length (lastn n l) <= n)%nat.
Proof. unfold lastn. rewrite length_skipn. lia. Qed.

Lemma lastn_snoc {A} (n : nat) (l : list A) (x : A) :
  (1 <= n)%nat -> lastn n (l ++ [x]) = lastn (n - 1) l ++ [x].
Proof.
  intros Hn. unfold lastn. rewrite length_app. simpl.
  rewrite skipn_app. f_equal; [f_equal; lia|].
  replace (length l + 1 - n - length l)%nat with 0%nat by lia. reflexivity.
Qed.

(** Feeding any sequence of trade messages keeps every per-condition buffer at most [max_trades_per_market] long. *)
Theorem append_last_trade_bounded (f : string -> option Q) (i : string -> option Z)
    (r : jval -> string) (st : PolymarketStreamState) (msgs : list message) :
  buffers_bounded st ->
  buffers_bounded (fold_left (append_last_trade f i r) msgs st).
Proof.
  revert st. induction msgs as [|data msgs IH]; intros st Hb; simpl; [exact Hb|].
  apply IH. destruct (parse_trade f i r data) as [t|e] eqn:Ep.
  - rewrite (append_last_trade_ok f i r st data t Ep). unfold buffers_bounded. simpl.
    apply map_Forall_insert_2; [apply length_lastn|exact Hb].
  - rewrite (append_last_trade_raise f i r st data e Ep). exact Hb.
Qed.

(** After a trade message that parses to [t] is appended, the most recent trade returned for [t]'s condition is [t] (when the buffer bound and the limit are at least 1). *)
Theorem append_then_last_trade (f : string -> option Q) (i : string -> option Z)
    (r : jval -> string) (st : PolymarketStreamState) (data : message)
    (t : TE.TradeEvent) (limit : nat) :
  parse_trade f i r data = Ok t ->
  (1 <= max_trades_per_market st)%nat -> (1 <= limit)%nat ->
  Rebalance.py_last
    (get_last_trades (append_last_trade f i r st data) (TE.condition_id t) limit) = Ok t.
Proof.
  intros Ep HM Hl. rewrite (append_last_trade_ok f i r st data t Ep).
  unfold get_last_trades. simpl. rewrite lookup_insert_eq. simpl.
  rewrite lastn_snoc by exact HM.
  destruct (lastn _ _ ++ [t]) as [|a l'] eqn:E;
    [destruct (lastn (max_trades_per_market st - 1) _); discriminate|].
  rewrite <- E, lastn_snoc by exact Hl.
  unfold Rebalance.py_last. rewrite rev_app_distr. reflexivity.
Qed.

Lemma append_last_trade_bounded_witness :
  buffers_bounded (mkStreamState ∅ ∅ 2) /\
  buffers_bounded
    (fold_left (append_last_trade decimal_float decimal_int repr_scalar)
       [[("market", JStr "c1"); ("size", JStr "10"); ("price", JFloat (1#2))];
        [("market", JStr "c1"); ("size", JStr "4"); ("price", JFloat (1#4))];
        [("market", JStr "c1"); ("size", JStr "1"); ("price", JFloat (3#4))]]
       (mkStreamState ∅ ∅ 2)).
Proof.
  split; [apply map_Forall_empty|].
  apply append_last_trade_bounded. apply map_Forall_empty.
Defined.

Lemma append_then_last_trade_witness :
  let msg := [("asset_id", JStr "y1"); ("market", JStr "c1"); ("size", JStr "10");
              ("price", JFloat (1#2)); ("timestamp", JStr "1700000000123")] in
  let t := TE.mkTradeEvent "c1" "y1" "" (10#1) (1#2) ((10#1) * (1#2)) 1700000000 "c1" None in
  parse_trade decimal_float decimal_int repr_scalar msg = Ok t /\
  (1 <= max_trades_per_market (mkStreamState ∅ ∅ 200))%nat /\ (1 <= 50)%nat /\
  Rebalance.py_last
    (get_last_trades (append_last_trade decimal_float decimal_int repr_scalar
                        (mkStreamState ∅ ∅ 200) msg) "c1" 50) = Ok t.
Proof.
  intros msg t.
  assert (Ep : parse_trade decimal_float decimal_int repr_scalar msg = Ok t)
    by (vm_compute; reflexivity).
  split; [exact Ep|split; [simpl; lia|split; [lia|]]].
  apply (append_then_last_trade decimal_float decimal_int repr_scalar
           (mkStreamState ∅ ∅ 200) msg t 50 Ep); simpl; lia.
Defined.

Lemma collect_levels_sound_witness :
  let es := [WList [WScalar (JFloat (1#2)); WScalar (JInt 10)]; WScalar JNone;
             WDict [("price", WScalar JNone); ("size", WScalar (JInt 3))]] in
  In (mkLevel (1#2) 10) (collect_levels decimal_float es) /\
  exists entry, In entry es /\
    ((exists d, entry = WDict d /\
       ws_float decimal_float (ws_get d "price") = Ok (1#2) /\
       ws_float decimal_float (ws_get d "size") = Ok 10) \/
     (exists p s rest, entry = WList (p :: s :: rest) /\
       ws_float decimal_float p = Ok (1#2) /\ ws_float decimal_float s = Ok 10)).
Proof.
  intros es.
  assert (H : In (mkLevel (1#2) 10) (collect_levels decimal_float es))
    by (vm_compute; left; reflexivity).
  split; [exact H|].
  exact (collect_levels_sound decimal_float es (mkLevel (1#2) 10) H).
Defined.

End StreamBookProofs.

Module RebalanceExtraProofs.
Import Stream Rebalance.

(** [_estimate_yes_price] is [None] exactly when the book has no bids and no asks; otherwise its result lies between the prices of the quoted best levels. *)
Theorem estimate_yes_price_range (book : OrderBook) :
  (estimate_yes_price book = None <-> bids book = [] /\ asks book = []) /\
  (forall p, estimate_yes_price book = Some p ->
     let quoted := option_list (best_bid book) ++ option_list (best_ask book) in
     exists lo hi, In lo quoted /\ In hi quoted /\ price lo <= p <= price hi).
Proof.
  unfold estimate_yes_price, best_bid, best_ask.
  destruct (bids book) as [|b bs], (asks book) as [|a as_]; simpl.
  - split; [tauto|discriminate].
  - split; [split; [discriminate|intros [_ H]; discriminate]|].
    intros p [= <-]. exists a, a. repeat split; auto; lra.
  - split; [split; [discriminate|intros [H _]; discriminate]|].
    intros p [= <-]. exists b, b. repeat split; auto; lra.
  - split; [split; [discriminate|intros [H _]; discriminate]|].
    intros p [= <-].
    assert (E : (price b + price a) / 2 == (1#2) * price b + (1#2) * price a).
    { field. }
    destruct (Qlt_le_dec (price a) (price b)).
    + exists a, b. repeat split; auto; rewrite E; lra.
    + exists b, a. repeat split; auto; rewrite E; lra.
Qed.





(** What every signal of [detect_signals] satisfies, for the markets [all] it scanned. *)
Definition signal_sound (state : PolymarketStreamState) (all : list Market)
    (min_abs_move min_notional : Q) (max_age_seconds : Z) (s : RebalanceSignal) : Prop :=
  In (market s) all /\
  platform (market s) = POLYMARKET /\
  truthy_id (condition_id (market s)) = true /\
  truthy_id (yes_token_id (market s)) = true /\
  (exists book, get_orderbook_for_market state (market s) YES = Some book /\
                estimate_yes_price book = Some (current_yes s)) /\
  delta s = current_yes s - signal_baseline_yes s /\
  min_abs_move <= Qabs (delta s) /\
  min_notional <= last_trade_notional s /\
  ((direction s = "short_yes"%string /\ 0 < delta s) \/
   (direction s = "short_no"%string /\ delta s <= 0)) /\
  window_seconds s = max_age_seconds.

Section Loop.
Variables (min_abs_move min_notional : Q) (max_age_seconds min_trades : Z).
Variable state : PolymarketStreamState.
Variable now_ts : Z.
Variable all : list Market.

Local Abbreviation process :=
  (process_market min_abs_move min_notional max_age_seconds min_trades state now_ts).
Local Abbreviation scan :=
  (scan_markets min_abs_move min_notional max_age_seconds min_trades state now_ts).
Local Abbreviation sound :=
  (signal_sound state all min_abs_move min_notional max_age_seconds).

Lemma process_sound mon acc m acc' mon' :
  In m all -> Forall sound acc -> process mon acc m = (Ok acc', mon') -> Forall sound acc'.
Proof.
  intros Hin Hacc. unfold process_market.
  destruct (platform m) eqn:Ep; [|intros H; inversion H; subst; exact Hacc].
  destruct (negb (truthy_id (condition_id m)) || negb (truthy_id (yes_token_id m))) eqn:Et;
    [intros H; inversion H; subst; exact Hacc|].
  apply orb_false_iff in Et as [E1 E2]. apply negb_false_iff in E1, E2.
  destruct (get_orderbook_for_market state m YES) as [book|] eqn:Eb;
    [|intros H; inversion H; subst; exact Hacc].
  destruct (estimate_yes_price book) as [cur|] eqn:Ec;
    [|intros H; inversion H; subst; exact Hacc].
  destruct (update_baseline mon _ cur) as [baseline mon1].
  destruct (py_lt (Qabs (cur - baseline)) min_abs_move) eqn:Em;
    [intros H; inversion H; subst; exact Hacc|].
  destruct (_ <? min_trades)%Z; [intros H; inversion H; subst; exact Hacc|].
  destruct (py_last _) as [lt|e]; [|intros H; inversion H].
  destruct (_ || _); [intros H; inversion H; subst; exact Hacc|].
  destruct (py_lt (TE.notional lt) min_notional) eqn:En;
    [intros H; inversion H; subst; exact Hacc|].
  intros H. inversion H; subst. apply Forall_app. split; [exact Hacc|].
  constructor; [|constructor].
  apply RebalanceProofs.py_lt_false in Em, En.
  unfold signal_sound; simpl.
  split; [exact Hin|split; [exact Ep|split; [exact E1|split; [exact E2|]]]].
  split; [exists book; split; assumption|].
  split; [reflexivity|split; [exact Em|split; [exact En|split; [|reflexivity]]]].
  destruct (py_lt 0 (cur - baseline)) eqn:Ed; [left|right]; split; try reflexivity.
  - apply PricingProofs.py_lt_true. exact Ed.
  - apply RebalanceProofs.py_lt_false. exact Ed.
Qed.

Lemma scan_sound l mon acc res mon' :
  incl l all -> Forall sound acc -> scan mon l acc = (Ok res, mon') -> Forall sound res.
Proof.
  revert mon acc. induction l as [|m l IH]; intros mon acc Hl Hacc; simpl.
  - intros H. inversion H; subst. exact Hacc.
  - destruct (process mon acc m) as [[a|e] m1] eqn:Ep; [|discriminate].
    apply IH; [intros x Hx; apply Hl; right; exact Hx|].
    exact (process_sound mon acc m a m1 (Hl m (or_introl eq_refl)) Hacc Ep).
Qed.

(** A market of another condition id leaves the baseline of [cid], whatever the
    iteration's outcome. *)
Lemma process_frame cid mon acc m r mon' :
  condition_id m <> Some cid -> process mon acc m = (r, mon') ->
  baseline_yes mon' !! cid = baseline_yes mon !! cid /\ ema_alpha mon' = ema_alpha mon.
Proof.
  intros Hc. unfold process_market.
  destruct (platform m); [|intros H; inversion H; subst; auto].
  destruct (negb (truthy_id (condition_id m)) || negb (truthy_id (yes_token_id m))) eqn:Et;
    [intros H; inversion H; subst; auto|].
  destruct (condition_id m) as [c|] eqn:Ec; [|discriminate].
  destruct (get_orderbook_for_market state m YES) as [book|];
    [|intros H; inversion H; subst; auto].
  destruct (estimate_yes_price book) as [cur|]; [|intros H; inversion H; subst; auto].
  assert (Hb : forall b, baseline_yes (mkMonitor (<[c := b]> (baseline_yes mon)) (ema_alpha mon))
                         !! cid = baseline_yes mon !! cid).
  { intros b. simpl. apply lookup_insert_ne. congruence. }
  unfold update_baseline. cbv beta iota zeta.
  repeat match goal with
         | |- context [if ?b then _ else _] => destruct b
         | |- context [match py_last ?l with _ => _ end] => destruct (py_last l)
         end;
  intros H; inversion H; subst; split; auto.
Qed.

Lemma scan_frame cid l mon acc r mon' :
  Forall (fun m => condition_id m <> Some cid) l -> scan mon l acc = (r, mon') ->
  baseline_yes mon' !! cid = baseline_yes mon !! cid /\ ema_alpha mon' = ema_alpha mon.
Proof.
  intros Hf. revert mon acc. induction Hf as [|m l Hm Hf IH]; intros mon acc; simpl.
  - intros H. inversion H; subst. auto.
  - destruct (process mon acc m) as [[a|e] m1] eqn:Ep; intros H.
    + destruct (IH _ _ H) as [H1 H2].
      destruct (process_frame cid mon acc m (Ok a) m1 Hm Ep) as [H3 H4].
      split; congruence.
    + inversion H; subst. exact (process_frame cid mon acc m (Raise e) mon' Hm Ep).
Qed.
End Loop.

Definition signal_key_ge (a b : RebalanceSignal) : Prop := signal_key_lt a b = false.

Lemma signal_key_lt_asym a b : signal_key_lt a b = true -> signal_key_lt b a = false.
Proof.
  unfold signal_key_lt. intros H.
  apply orb_true_iff in H.
  apply orb_false_iff. split.
  - apply RebalanceProofs.py_lt_false.
    destruct H as [H|H]; [apply PricingProofs.py_lt_true in H; lra|].
    apply andb_true_iff in H as [H _]. apply Qeq_bool_iff in H. lra.
  - apply andb_false_iff.
    destruct H as [H|H].
    + left. apply PricingProofs.py_lt_true in H.
      destruct (Qeq_bool (Qabs (delta b)) (Qabs (delta a))) eqn:E; [|reflexivity].
      apply Qeq_bool_iff in E. lra.
    + right. apply andb_true_iff in H as [_ H].
      apply PricingProofs.py_lt_true in H. apply RebalanceProofs.py_lt_false. lra.
Qed.

Lemma insert_signal_hd y x l :
  HdRel signal_key_ge y l -> signal_key_ge y x -> HdRel signal_key_ge y (insert_signal x l).
Proof.
  intros Hh Hx. destruct l as [|z l]; simpl; [constructor; exact Hx|].
  destruct (signal_key_lt z x); constructor; [exact Hx|inversion Hh; assumption].
Qed.

Lemma insert_signal_sorted x l :
  Sorted signal_key_ge l -> Sorted signal_key_ge (insert_signal x l).
Proof.
  induction l as [|y l IH]; simpl; intros Hs; [constructor; constructor|].
  destruct (signal_key_lt y x) eqn:E.
  - constructor; [exact Hs|constructor; apply signal_key_lt_asym; exact E].
  - inversion Hs; subst. constructor; [apply IH; assumption|].
    apply insert_signal_hd; assumption.
Qed.

Lemma sort_signals_sorted l : Sorted signal_key_ge (sort_signals l).
Proof.
  unfold sort_signals.
  assert (H : forall acc, Sorted signal_key_ge acc ->
    Sorted signal_key_ge (fold_left (fun acc x => insert_signal x acc) l acc)).
  { induction l as [|x l IH]; intros acc Hacc; simpl; [exact Hacc|].
    apply IH. apply insert_signal_sorted. exact Hacc. }
  apply H. constructor.
Qed.

(** Every signal returned by [detect_signals] is for a listed Polymarket market with a book and meets the thresholds: |delta| at least [min_abs_move], notional at least [min_notional], direction [short_yes] iff delta is positive. *)
Theorem detect_signals_sound (mon : RebalanceMonitor) (st : PolymarketStreamState)
    (markets : list Market) (min_abs_move min_notional : Q)
    (max_age_seconds min_trades : Z) (now : option Q) (clock : Q) :
  match fst (detect_signals mon st markets min_abs_move min_notional max_age_seconds
               min_trades now clock) with
  | Ok res => Forall (signal_sound st markets min_abs_move min_notional max_age_seconds) res
  | Raise _ => True
  end.
Proof.
  unfold detect_signals. destruct now as [t|]; [|exact I]. cbv beta iota zeta.
  destruct (scan_markets _ _ _ _ _ _ _ _ _) as [[res|e] mon'] eqn:Es; simpl; [|exact I].
  apply List.Forall_forall. intros s Hs.
  apply (Permutation_in _ (RebalanceProofs.sort_signals_perm res)) in Hs.
  revert s Hs. apply List.Forall_forall.
  exact (scan_sound _ _ _ _ _ _ markets markets mon [] res mon' (fun x H => H)
           ltac:(constructor) Es).
Qed.

(** The signals returned by [detect_signals] are sorted by the sort key, largest first. *)
Theorem detect_signals_sorted (mon : RebalanceMonitor) (st : PolymarketStreamState)
    (markets : list Market) (min_abs_move min_notional : Q)
    (max_age_seconds min_trades : Z) (now : option Q) (clock : Q) :
  match fst (detect_signals mon st markets min_abs_move min_notional max_age_seconds
               min_trades now clock) with
  | Ok res => Sorted signal_key_ge res
  | Raise _ => True
  end.
Proof.
  unfold detect_signals. destruct now as [t|]; [|exact I]. cbv beta iota zeta.
  destruct (scan_markets _ _ _ _ _ _ _ _ _) as [[res|e] mon'] eqn:Es; simpl; [|exact I].
  apply sort_signals_sorted.
Qed.

(** With [min_trades] at least 1 and a given [now], [detect_signals] never raises. *)
Theorem detect_signals_never_raises (mon : RebalanceMonitor) (st : PolymarketStreamState)
    (markets : list Market) (min_abs_move min_notional : Q)
    (max_age_seconds min_trades : Z) (t clock : Q) :
  (1 <= min_trades)%Z ->
  exists res mon', detect_signals mon st markets min_abs_move min_notional max_age_seconds
                     min_trades (Some t) clock = (Ok res, mon').
Proof.
  intros Hmin. unfold detect_signals. cbv beta iota zeta.
  destruct (RebalanceProofs.scan_ok min_abs_move min_notional max_age_seconds min_trades st
              (q_trunc t) markets mon [] Hmin) as (res & mon' & ->).
  eauto.
Qed.

(** [detect_signals] leaves the baseline of a condition that no listed market has untouched, and never changes alpha. *)
Theorem detect_signals_baseline_frame (mon : RebalanceMonitor) (st : PolymarketStreamState)
    (markets : list Market) (min_abs_move min_notional : Q)
    (max_age_seconds min_trades : Z) (now : option Q) (clock : Q) (cid : string) :
  Forall (fun m => condition_id m <> Some cid) markets ->
  let mon' := snd (detect_signals mon st markets min_abs_move min_notional max_age_seconds
                     min_trades now clock) in
  baseline_yes mon' !! cid = baseline_yes mon !! cid /\ ema_alpha mon' = ema_alpha mon.
Proof.
  intros Hf mon'. unfold mon', detect_signals. destruct now as [t|]; [|split; reflexivity].
  cbv beta iota zeta.
  destruct (scan_markets _ _ _ _ _ _ _ _ _) as [r mon1] eqn:Es.
  destruct (scan_frame _ _ _ _ _ _ cid markets mon [] r mon1 Hf Es) as [H1 H2].
  destruct r; simpl; auto.
Qed.

(** With [min_trades <= 0], a market whose YES price moved enough while its condition
    has no recorded trade reaches [trades[-1]] on an empty list. *)
Theorem detect_signals_no_trades_index_error (mon : RebalanceMonitor)
    (st : PolymarketStreamState) (m : Market) (rest : list Market)
    (min_abs_move min_notional : Q) (max_age_seconds min_trades : Z) (t clock : Q)
    (cid : string) (book : OrderBook) (cur : Q) :
  (min_trades <= 0)%Z -> platform m = POLYMARKET -> condition_id m = Some cid ->
  cid <> ""%string -> truthy_id (yes_token_id m) = true ->
  get_orderbook_for_market st m YES = Some book -> estimate_yes_price book = Some cur ->
  min_abs_move <= Qabs (cur - fst (update_baseline mon cid cur)) ->
  get_last_trades st cid 50 = [] ->
  detect_signals mon st (m :: rest) min_abs_move min_notional max_age_seconds min_trades
    (Some t) clock = (Raise IndexError, snd (update_baseline mon cid cur)).
Proof.
  intros Hmin Hp Hc Hcid Hy Hb Hcur Hmove Htr.
  unfold detect_signals. cbv beta iota zeta.
  rewrite RebalanceProofs.scan_cons.
  unfold process_market. rewrite Hp, Hc, Hy. unfold truthy_id at 1.
  destruct (String.eqb cid "") eqn:Ee; [apply String.eqb_eq in Ee; contradiction|].
  cbv beta iota zeta delta [negb orb].
  rewrite Hb, Hcur.
  destruct (update_baseline mon cid cur) as [baseline mon1]. simpl in Hmove |- *.
  rewrite (proj2 (RebalanceProofs.py_lt_false _ _) Hmove).
  rewrite Htr. simpl.
  replace (Z.of_nat 0 <? min_trades)%Z with false by (symmetry; apply Z.ltb_ge; simpl; exact Hmin).
  reflexivity.
Qed.


Lemma detect_signals_never_raises_witness :
  exists res mon',
    detect_signals (mkMonitor ∅ (3#10)) (mkStreamState ∅ ∅ 200)
      [mkMarket POLYMARKET "m1" "Will it rain?" (Some "c1") (Some "y1") (Some "n1")]
      (5#100) 0 900 1 (Some 1700000000) 0 = (Ok res, mon').
Proof.
  apply (detect_signals_never_raises (mkMonitor ∅ (3#10)) (mkStreamState ∅ ∅ 200)
           [mkMarket POLYMARKET "m1" "Will it rain?" (Some "c1") (Some "y1") (Some "n1")]
           (5#100) 0 900 1 1700000000 0).
  lia.
Defined.

Lemma detect_signals_baseline_frame_witness :
  let mon := mkMonitor (<["c2" := 1#2]> ∅) (3#10) in
  let mon' := snd (detect_signals mon (mkStreamState ∅ ∅ 200)
                     [mkMarket POLYMARKET "m1" "Will it rain?" (Some "c1") (Some "y1") (Some "n1")]
                     (5#100) 0 900 1 (Some 1700000000) 0) in
  baseline_yes mon' !! "c2"%string = baseline_yes mon !! "c2"%string /\
  ema_alpha mon' = ema_alpha mon.
Proof.
  apply (detect_signals_baseline_frame _ _ _ _ _ _ _ _ _ "c2").
  repeat constructor. discriminate.
Defined.

Lemma detect_signals_no_trades_index_error_witness :
  let m := mkMarket POLYMARKET "m1" "Will it rain?" (Some "c1") (Some "y1") (Some "n1") in
  let st := mkStreamState (<["y1" := mkBook [mkLevel (2#5) 10] [mkLevel (3#5) 10]]> ∅) ∅ 200 in
  let mon := mkMonitor (<["c1" := 3#10]> ∅) (1#2) in
  detect_signals mon st [m] (5#100) 0 900 0 (Some 1700000000) 0
  = (Raise IndexError, snd (update_baseline mon "c1" (((2#5) + (3#5)) / 2))).
Proof.
  intros m st mon.
  apply (detect_signals_no_trades_index_error mon st m [] (5#100) 0 900 0 1700000000 0 "c1"
           (mkBook [mkLevel (2#5) 10] [mkLevel (3#5) 10]) (((2#5) + (3#5)) / 2));
    try reflexivity; try discriminate; try lia.
Defined.

End RebalanceExtraProofs.

Module BarrierExtraProofs.
Import Barrier.
Local Open Scope R_scope.

Local Ltac bind_step := unfold bind; cbv beta iota zeta.

Lemma clamp_range x : 0 <= py_max 0 (py_min 1 x) <= 1.
Proof.
  unfold py_max, py_min.
  destruct (Rlt_dec x 1); destruct (Rlt_dec 0 _); Lra.lra.
Qed.

(** [one_touch_prob] on valid inputs: only the power can raise. *)
Lemma one_touch_normal erf spot barrier years vol drift direction :
  0 < spot -> 0 < barrier -> 0 < years -> 0 < vol ->
  let s := if String.eqb direction "down" then 1 / spot else spot in
  let b := if String.eqb direction "down" then 1 / barrier else barrier in
  let denom := vol * sqrt years in
  one_touch_prob erf spot barrier years vol drift direction =
  (term_reflect <- py_pow (b / s) (2 * drift / (vol * vol)) ;;
   Ok (Some (py_max 0 (py_min 1
     (norm_cdf erf (- ((ln (s / b) + (drift - 0.5 * vol * vol) * years) / denom)) +
      term_reflect * norm_cdf erf ((ln (s / b) + (drift + 0.5 * vol * vol) * years) / denom)))))).
Proof.
  intros Hs Hb Hy Hv s b denom. unfold one_touch_prob.
  destruct (Rle_dec spot 0); [Lra.lra|].
  destruct (Rle_dec barrier 0); [Lra.lra|].
  destruct (Rle_dec years 0); [Lra.lra|].
  destruct (Rle_dec vol 0); [Lra.lra|].
  assert (Hs' : 0 < s) by (unfold s; destruct (String.eqb direction "down");
                           [apply Rdiv_lt_0_compat; Lra.lra|exact Hs]).
  assert (Hb' : 0 < b) by (unfold b; destruct (String.eqb direction "down");
                           [apply Rdiv_lt_0_compat; Lra.lra|exact Hb]).
  assert (Hd : 0 < denom) by (unfold denom; apply Rmult_lt_0_compat; [exact Hv|];
                              apply sqrt_lt_R0; exact Hy).
  rewrite BarrierProofs.py_sqrt_ok by Lra.lra. bind_step.
  replace (if String.eqb direction "down" then py_div 1 spot else Ok spot) with (Ok s)
    by (unfold s; destruct (String.eqb direction "down");
        [rewrite BarrierProofs.py_div_ok by Lra.lra|]; reflexivity).
  replace (if String.eqb direction "down" then py_div 1 barrier else Ok barrier) with (Ok b)
    by (unfold b; destruct (String.eqb direction "down");
        [rewrite BarrierProofs.py_div_ok by Lra.lra|]; reflexivity).
  bind_step.
  rewrite BarrierProofs.py_div_ok by Lra.lra. bind_step.
  rewrite BarrierProofs.py_log_ok by (apply Rdiv_lt_0_compat; Lra.lra). bind_step.
  fold denom.
  destruct (Req_EM_T denom 0); [Lra.lra|].
  assert (Hvv : 0 < vol * vol) by (apply Rmult_lt_0_compat; exact Hv).
  rewrite !BarrierProofs.py_div_ok by (apply Rgt_not_eq; assumption).
  bind_step.
  destruct (Rlt_dec 0 vol); [|Lra.lra].
  bind_step. reflexivity.
Qed.

Lemma one_touch_invalid erf spot barrier years vol drift direction :
  (spot <= 0 \/ barrier <= 0 \/ years <= 0 \/ vol <= 0) ->
  one_touch_prob erf spot barrier years vol drift direction = Ok None.
Proof.
  intros H. unfold one_touch_prob.
  destruct (Rle_dec spot 0); [reflexivity|].
  destruct (Rle_dec barrier 0); [reflexivity|].
  destruct (Rle_dec years 0); [reflexivity|].
  destruct (Rle_dec vol 0); [reflexivity|].
  exfalso. Lra.lra.
Qed.

Lemma one_touch_valid erf spot barrier years vol drift direction :
  0 < spot -> 0 < barrier -> 0 < years -> 0 < vol ->
  (exists p, one_touch_prob erf spot barrier years vol drift direction = Ok (Some p) /\
             0 <= p <= 1) \/
  one_touch_prob erf spot barrier years vol drift direction = Raise OverflowError.
Proof.
  intros Hs Hb Hy Hv. rewrite (one_touch_normal erf spot barrier years vol drift direction)
    by assumption.
  unfold py_pow. destruct (Rle_dec _ _); [right; reflexivity|].
  left. bind_step. eexists. split; [reflexivity|apply clamp_range].
Qed.

Lemma one_touch_some_range erf spot barrier years vol drift direction p :
  one_touch_prob erf spot barrier years vol drift direction = Ok (Some p) -> 0 <= p <= 1.
Proof.
  destruct (Rle_dec spot 0); [|destruct (Rle_dec barrier 0);
    [|destruct (Rle_dec years 0); [|destruct (Rle_dec vol 0)]]];
    try (rewrite one_touch_invalid by Lra.lra; discriminate).
  destruct (one_touch_valid erf spot barrier years vol drift direction) as [(q & E & R)|E];
    try Lra.lra; rewrite E; [intros H; injection H as <-; exact R|discriminate].
Qed.

Lemma no_touch_complement_eq erf spot barrier years vol drift direction :
  no_touch_prob erf spot barrier years vol drift direction =
  match one_touch_prob erf spot barrier years vol drift direction with
  | Ok (Some p) => Ok (Some (1 - p))
  | r => r
  end.
Proof.
  unfold no_touch_prob.
  destruct (one_touch_prob erf spot barrier years vol drift direction) as [[p|]|e] eqn:E;
    simpl; try reflexivity.
  apply one_touch_some_range in E. unfold py_max.
  destruct (Rlt_dec 0 (1 - p)); [reflexivity|]. replace p with 1 by Lra.lra.
  f_equal. f_equal. Lra.lra.
Qed.

(** [no_touch_prob] is [1 - one_touch_prob] when the latter is a probability, and passes [None] and errors through. *)
Theorem no_touch_prob_complement (erf : R -> R) (spot barrier years vol drift : R)
    (direction : string) :
  no_touch_prob erf spot barrier years vol drift direction =
  match one_touch_prob erf spot barrier years vol drift direction with
  | Ok (Some p) => Ok (Some (1 - p))
  | r => r
  end.
Proof. apply no_touch_complement_eq. Qed.

(** A [down] barrier is priced as an [up] barrier at the reciprocal spot and barrier; any direction other than [down] is priced as [up]. *)
Theorem one_touch_prob_direction (erf : R -> R) (spot barrier years vol drift : R)
    (direction : string) :
  one_touch_prob erf spot barrier years vol drift "down" =
    one_touch_prob erf (1 / spot) (1 / barrier) years vol drift "up" /\
  (direction <> "down"%string ->
   one_touch_prob erf spot barrier years vol drift direction =
     one_touch_prob erf spot barrier years vol drift "up").
Proof.
  split.
  - destruct (Rle_dec spot 0) as [H|H];
      [rewrite !one_touch_invalid; [reflexivity| |left; exact H]; left;
       destruct (Req_dec spot 0) as [->|Hn];
       [unfold Rdiv; rewrite Rinv_0; Lra.lra|
        unfold Rdiv; rewrite Rmult_1_l; apply Rlt_le, Rinv_lt_0_compat; Lra.lra]|].
    destruct (Rle_dec barrier 0) as [H'|H'];
      [rewrite !one_touch_invalid; [reflexivity| |right; left; exact H']; right; left;
       destruct (Req_dec barrier 0) as [->|Hn];
       [unfold Rdiv; rewrite Rinv_0; Lra.lra|
        unfold Rdiv; rewrite Rmult_1_l; apply Rlt_le, Rinv_lt_0_compat; Lra.lra]|].
    destruct (Rle_dec years 0) as [Hy|Hy];
      [rewrite !one_touch_invalid by Lra.lra; reflexivity|].
    destruct (Rle_dec vol 0) as [Hv|Hv];
      [rewrite !one_touch_invalid by Lra.lra; reflexivity|].
    assert (P1 : 0 < 1 / spot) by (apply Rdiv_lt_0_compat; Lra.lra).
    assert (P2 : 0 < 1 / barrier) by (apply Rdiv_lt_0_compat; Lra.lra).
    rewrite (one_touch_normal erf spot barrier), (one_touch_normal erf (1 / spot) (1 / barrier))
      by Lra.lra.
    reflexivity.
  - intros Hd. unfold one_touch_prob.
    apply String.eqb_neq in Hd. rewrite Hd. reflexivity.
Qed.

End BarrierExtraProofs.
Module HedgeProbProofs.
Import Barrier HedgeProb.
Local Open Scope R_scope.

Local Ltac bind_step := unfold bind; cbv beta iota zeta.

Lemma sigma_pos vol : 0 < py_max vol (1 / 1000000).
Proof. unfold py_max. destruct (Rlt_dec vol (1 / 1000000)); Lra.lra. Qed.

Lemma year_seconds_pos : 0 < year_seconds.
Proof. unfold year_seconds. Lra.lra. Qed.

Lemma hs_norm_cdf_range erf x :
  (forall y, -1 <= erf y <= 1) -> 0 <= hs_norm_cdf erf x <= 1.
Proof. intros H. unfold hs_norm_cdf. specialize (H (x / sqrt 2)). Lra.lra. Qed.

Lemma float_div_ok x y : y <> 0 -> / 2 ^ 1075 < Rabs (x / y) -> float_div x y = Ok (x / y).
Proof.
  intros Hy H. unfold float_div. destruct (Req_EM_T y 0); [contradiction|].
  destruct (Rle_dec _ _); [Lra.lra|reflexivity].
Qed.

Lemma float_div_flush x y : y <> 0 -> Rabs (x / y) <= / 2 ^ 1075 -> float_div x y = Ok 0.
Proof.
  intros Hy H. unfold float_div. destruct (Req_EM_T y 0); [contradiction|].
  destruct (Rle_dec _ _); [reflexivity|Lra.lra].
Qed.

Lemma implied_prob_above_invalid erf iso spot strike expiry now vol :
  (parse_expiry iso expiry = None \/ spot <= 0 \/ strike <= 0 \/
   exists e, parse_expiry iso expiry = Some e /\ e <= now) ->
  implied_prob_above erf iso spot strike expiry now vol = Ok (None, 0).
Proof.
  intros H. unfold implied_prob_above.
  destruct (parse_expiry iso expiry) as [e|] eqn:Ep; [|reflexivity].
  destruct (Rle_dec spot 0); [reflexivity|].
  destruct (Rle_dec strike 0); [reflexivity|].
  destruct (Rle_dec (e - now) 0); [reflexivity|].
  exfalso. destruct H as [H|[H|[H|(e' & H1 & H2)]]]; try discriminate; try Lra.lra.
  injection H1 as <-. Lra.lra.
Qed.

(** Past the validity checks, the program computes up to the quotient [spot / strike]. *)
Lemma implied_prob_above_valid erf iso spot strike expiry now vol e :
  parse_expiry iso expiry = Some e -> now < e -> 0 < spot -> 0 < strike ->
  let T := (e - now) / year_seconds in
  let sigma := py_max vol (1 / 1000000) in
  implied_prob_above erf iso spot strike expiry now vol =
  (r <- float_div spot strike ;;
   ln_r <- py_log r ;;
   d2 <- py_div (ln_r - 0.5 * sigma * sigma * T) (sigma * sqrt T) ;;
   Ok (Some (hs_norm_cdf erf d2), T)).
Proof.
  intros Ep Hn Hs Hk T sigma. unfold implied_prob_above. rewrite Ep.
  destruct (Rle_dec spot 0); [Lra.lra|].
  destruct (Rle_dec strike 0); [Lra.lra|].
  destruct (Rle_dec (e - now) 0); [Lra.lra|].
  pose proof year_seconds_pos as Hys.
  rewrite BarrierProofs.py_div_ok by Lra.lra. bind_step.
  assert (Hy : 0 < T) by (apply Rdiv_lt_0_compat; Lra.lra).
  rewrite BarrierProofs.py_sqrt_ok by (unfold T in Hy; Lra.lra). bind_step.
  assert (Hd : 0 < sigma * sqrt T)
    by (apply Rmult_lt_0_compat; [apply sigma_pos|apply sqrt_lt_R0; exact Hy]).
  fold T sigma.
  destruct (Rle_dec _ 0); [Lra.lra|]. reflexivity.
Qed.

Lemma implied_prob_above_value erf iso spot strike expiry now vol e :
  parse_expiry iso expiry = Some e -> now < e -> 0 < spot -> 0 < strike ->
  / 2 ^ 1075 < spot / strike ->
  let T := (e - now) / year_seconds in
  let sigma := py_max vol (1 / 1000000) in
  implied_prob_above erf iso spot strike expiry now vol =
  Ok (Some (hs_norm_cdf erf ((ln (spot / strike) - 0.5 * sigma * sigma * T) / (sigma * sqrt T))),
      T).
Proof.
  intros Ep Hn Hs Hk Hr T sigma.
  rewrite (implied_prob_above_valid erf iso spot strike expiry now vol e Ep Hn Hs Hk).
  fold T sigma.
  assert (Hq : 0 < spot / strike) by (apply Rdiv_lt_0_compat; assumption).
  rewrite float_div_ok by (try rewrite Rabs_pos_eq; Lra.lra). bind_step.
  rewrite BarrierProofs.py_log_ok by exact Hq. bind_step.
  pose proof year_seconds_pos as Hys.
  assert (Hy : 0 < T) by (apply Rdiv_lt_0_compat; Lra.lra).
  assert (Hd : 0 < sigma * sqrt T)
    by (apply Rmult_lt_0_compat; [apply sigma_pos|apply sqrt_lt_R0; exact Hy]).
  rewrite BarrierProofs.py_div_ok by Lra.lra. reflexivity.
Qed.

Lemma implied_prob_above_underflow erf iso spot strike expiry now vol e :
  parse_expiry iso expiry = Some e -> now < e -> 0 < spot -> 0 < strike ->
  spot / strike <= / 2 ^ 1075 ->
  implied_prob_above erf iso spot strike expiry now vol = Raise ValueError.
Proof.
  intros Ep Hn Hs Hk Hr.
  rewrite (implied_prob_above_valid erf iso spot strike expiry now vol e Ep Hn Hs Hk).
  assert (Hq : 0 < spot / strike) by (apply Rdiv_lt_0_compat; assumption).
  rewrite float_div_flush by (try rewrite Rabs_pos_eq; Lra.lra). bind_step.
  unfold py_log. destruct (Rle_dec 0 0); [reflexivity|Lra.lra].
Qed.

Lemma parse_expiry_eval iso v v' :
  String.eqb v "" = false -> str_endswith v "Z" = true ->
  str_replace_char (Ascii.ascii_of_nat 90) "+00:00" v = v' ->
  parse_expiry iso v = iso v'.
Proof. intros H1 H2 H3. unfold parse_expiry. rewrite H1, H2, H3. reflexivity. Qed.

Lemma two_pow_ge n : (0 < n)%nat -> 2 <= 2 ^ n.
Proof.
  intros Hn. destruct n as [|n]; [lia|]. simpl.
  pose proof (pow_R1_Rle 2 n ltac:(Lra.lra)). Lra.lra.
Qed.

Lemma inv_two_pow_le n : (0 < n)%nat -> / 2 ^ n <= / 2.
Proof. intros Hn. apply Rinv_le_contravar; [Lra.lra|apply two_pow_ge; exact Hn]. Qed.

(** With [erf] saturating at [-1] for arguments at most [-6], the probability for
    spot 100, strike 150, 0.001 years and vol 0.01 is exactly 0. *)
Lemma implied_prob_above_saturates core :
  implied_prob_above (libm_erf core)
    (fun s => if String.eqb s "1970-01-01T08:45:36+00:00" then Some 31536 else None)
    100 150 "1970-01-01T08:45:36Z" 0 (1 / 100) = Ok (Some 0, (31536 - 0) / year_seconds).
Proof.
  set (iso := fun s => if String.eqb s "1970-01-01T08:45:36+00:00" then Some 31536 else None).
  assert (Ep : parse_expiry iso "1970-01-01T08:45:36Z" = Some 31536).
  { rewrite (parse_expiry_eval iso "1970-01-01T08:45:36Z" "1970-01-01T08:45:36+00:00")
      by reflexivity.
    unfold iso. reflexivity. }
  assert (Hr : / 2 ^ 1075 < 100 / 150) by (pose proof (inv_two_pow_le 1075 ltac:(lia)); Lra.lra).
  rewrite (implied_prob_above_value (libm_erf core) iso 100 150 "1970-01-01T08:45:36Z" 0
             (1 / 100) 31536 Ep) by Lra.lra.
  assert (HT : (31536 - 0) / year_seconds = / 1000) by (unfold year_seconds; field).
  rewrite HT.
  assert (Hsig : py_max (1 / 100) (1 / 1000000) = 1 / 100)
    by (unfold py_max; destruct (Rlt_dec (1 / 100) (1 / 1000000)); Lra.lra).
  rewrite Hsig.
  (* ln (2/3) <= -1/3 *)
  assert (Hln : ln (100 / 150) <= - (1 / 3)).
  { rewrite <- (ln_exp (- (1 / 3))). apply Rlt_le, ln_increasing; [Lra.lra|].
    pose proof (exp_ineq1 (- (1 / 3)) ltac:(Lra.lra)). Lra.lra. }
  assert (Hs0 : 0 < sqrt (/ 1000)) by (apply sqrt_lt_R0; Lra.lra).
  assert (Hs1 : sqrt (/ 1000) <= 1)
    by (rewrite <- sqrt_1; apply sqrt_le_1_alt; Lra.lra).
  set (den := 1 / 100 * sqrt (/ 1000)).
  assert (Hd0 : 0 < den) by (unfold den; Lra.lra).
  assert (Hd1 : 100 <= / den).
  { replace 100 with (/ (1 / 100)) by field. apply Rinv_le_contravar; [exact Hd0|].
    unfold den. Lra.lra. }
  set (num := ln (100 / 150) - 0.5 * (1 / 100) * (1 / 100) * / 1000).
  assert (Hnum : num <= - (1 / 3)) by (unfold num; Lra.lra).
  assert (Hd2 : num / den <= - (100 / 3)).
  { unfold Rdiv at 1. set (i := / den) in *. assert (num * i <= - (1 / 3) * i)
      by (apply Rmult_le_compat_r; Lra.lra).
    Lra.lra. }
  assert (Hq0 : 0 < sqrt 2) by (apply sqrt_lt_R0; Lra.lra).
  assert (Hq1 : sqrt 2 <= 2).
  { assert (H4 : sqrt 4 = 2)
      by (replace 4 with (2 * 2) by Lra.lra; apply sqrt_square; Lra.lra).
    rewrite <- H4 at 2. apply sqrt_le_1_alt. Lra.lra. }
  assert (Hx : num / den / sqrt 2 <= -6).
  { unfold Rdiv at 1. assert (Hi : / 2 <= / sqrt 2) by (apply Rinv_le_contravar; Lra.lra).
    assert (H : num / den * / sqrt 2 <= - (100 / 3) * / sqrt 2)
      by (apply Rmult_le_compat_r; [apply Rlt_le, Rinv_0_lt_compat; exact Hq0|exact Hd2]).
    set (j := / sqrt 2) in *. set (d := num / den) in *. Lra.lra. }
  unfold hs_norm_cdf, libm_erf.
  destruct (Rle_dec 6 (num / den / sqrt 2)); [Lra.lra|].
  destruct (Rle_dec (num / den / sqrt 2) (-6)); [|Lra.lra].
  f_equal. f_equal. f_equal. Lra.lra.
Qed.

Lemma one_le_two_pow n : 1 <= 2 ^ n.
Proof. apply pow_R1_Rle. Lra.lra. Qed.

(** C5 (counterexample): the probability is not always strictly between 0 and 1.
    With the C library's [erf], spot 100, strike 150, an expiry [31536] seconds
    (0.001 years) after [now] and vol 0.01 give [d2] of about -1282, [erf] of
    [d2 / sqrt 2] is exactly [-1.0] and the probability is exactly 0.  The values of
    [erf] below 6 in magnitude play no part ([implied_prob_above_saturates] holds for
    every [erf_core]); they are taken as 0 here. *)
Example implied_prob_above_zero_prob :
  implied_prob_above (libm_erf (fun _ => 0))
    (fun s => if String.eqb s "1970-01-01T08:45:36+00:00" then Some 31536 else None)
    100 150 "1970-01-01T08:45:36Z" 0 (1 / 100) = Ok (Some 0, (31536 - 0) / year_seconds) /\
  (31536 - 0) / year_seconds = / 1000.
Proof.
  split; [apply implied_prob_above_saturates|unfold year_seconds; field].
Qed.

(** C5 (amended): [_implied_prob_above] returns [(None, 0)] when the expiry does not
    parse, spot or strike is not positive, or the expiry is not after [now]; otherwise
    it never returns [None]: [math.log] raises [ValueError] when [spot / strike] rounds
    to [0.0] (magnitude at most [2^-1075]), and else, while no intermediate value
    overflows ([spot / strike <= 2^1000], [sigma <= 2^400], [T <= 2^100]), it returns
    [_norm_cdf(d2) = 0.5 * (1 + erf(d2 / sqrt 2))] with
    [d2 = (ln(spot / strike) - sigma^2 T / 2) / (sigma sqrt T)], [sigma = max(vol, 1e-6)]
    and [T] the time to expiry in years, together with [T]; this value lies in [[0, 1]]
    when [erf] does, and may be exactly 0 or 1 (see [implied_prob_above_zero_prob]). *)
Theorem implied_prob_above_spec (erf : R -> R) (iso_utc_timestamp : string -> option R)
    (spot strike : R) (expiry : string) (now vol : R) :
  let r := implied_prob_above erf iso_utc_timestamp spot strike expiry now vol in
  let sigma := py_max vol (1 / 1000000) in
  ((parse_expiry iso_utc_timestamp expiry = None \/ spot <= 0 \/ strike <= 0 \/
    exists e, parse_expiry iso_utc_timestamp expiry = Some e /\ e <= now) ->
   r = Ok (None, 0)) /\
  (forall e, parse_expiry iso_utc_timestamp expiry = Some e -> now < e ->
     0 < spot -> 0 < strike ->
     let T := (e - now) / year_seconds in
     (forall y, r <> Ok (None, y)) /\
     (spot / strike <= / 2 ^ 1075 -> r = Raise ValueError) /\
     (/ 2 ^ 1075 < spot / strike -> spot / strike <= 2 ^ 1000 ->
      sigma <= 2 ^ 400 -> T <= 2 ^ 100 ->
      let d2 := (ln (spot / strike) - 0.5 * sigma * sigma * T) / (sigma * sqrt T) in
      r = Ok (Some (hs_norm_cdf erf d2), T) /\
      ((forall x, -1 <= erf x <= 1) -> 0 <= hs_norm_cdf erf d2 <= 1))).
Proof.
  intros r sigma. split; [apply implied_prob_above_invalid|].
  intros e Ep Hn Hs Hk T.
  split; [|split].
  - intros y. unfold r.
    destruct (Rle_dec (spot / strike) (/ 2 ^ 1075)).
    + rewrite (implied_prob_above_underflow erf iso_utc_timestamp spot strike expiry now vol e)
        by assumption. discriminate.
    + rewrite (implied_prob_above_value erf iso_utc_timestamp spot strike expiry now vol e)
        by (assumption || Lra.lra). discriminate.
  - intros H. unfold r.
    apply (implied_prob_above_underflow erf iso_utc_timestamp spot strike expiry now vol e);
      assumption.
  - intros Hr _ _ _ d2. split.
    + unfold r. apply (implied_prob_above_value erf iso_utc_timestamp spot strike expiry
                         now vol e); assumption.
    + apply hs_norm_cdf_range.
Qed.

(** [implied_prob_above_spec] at the scenario spot 100, strike 150, 0.1 years
    ([3153600] seconds) and vol 1.0. *)
Lemma implied_prob_above_spec_witness :
  let iso := fun s => if String.eqb s "1970-02-06T12:00:00+00:00" then Some 3153600 else None in
  let erf := libm_erf (fun _ => 0) in
  let sigma := py_max 1 (1 / 1000000) in
  let T := (3153600 - 0) / year_seconds in
  parse_expiry iso "1970-02-06T12:00:00Z" = Some 3153600 /\ 0 < 3153600 /\
  0 < 100 /\ 0 < 150 /\ / 2 ^ 1075 < 100 / 150 /\ 100 / 150 <= 2 ^ 1000 /\
  sigma <= 2 ^ 400 /\ T <= 2 ^ 100 /\
  implied_prob_above erf iso 100 150 "1970-02-06T12:00:00Z" 0 1 =
    Ok (Some (hs_norm_cdf erf ((ln (100 / 150) - 0.5 * sigma * sigma * T) / (sigma * sqrt T))), T).
Proof.
  intros iso erf sigma T.
  assert (Ep : parse_expiry iso "1970-02-06T12:00:00Z" = Some 3153600).
  { rewrite (parse_expiry_eval iso "1970-02-06T12:00:00Z" "1970-02-06T12:00:00+00:00")
      by reflexivity.
    unfold iso. reflexivity. }
  assert (H1 : 0 < 3153600) by Lra.lra.
  assert (H2 : 0 < 100) by Lra.lra.
  assert (H3 : 0 < 150) by Lra.lra.
  assert (H4 : / 2 ^ 1075 < 100 / 150)
    by (pose proof (inv_two_pow_le 1075 ltac:(lia)); Lra.lra).
  assert (H5 : 100 / 150 <= 2 ^ 1000) by (pose proof (one_le_two_pow 1000); Lra.lra).
  assert (H6 : sigma <= 2 ^ 400)
    by (pose proof (one_le_two_pow 400); unfold sigma, py_max;
        destruct (Rlt_dec 1 (1 / 1000000)); Lra.lra).
  assert (H7 : T <= 2 ^ 100)
    by (pose proof (one_le_two_pow 100); unfold T, year_seconds; Lra.lra).
  do 8 (split; [assumption|]).
  pose proof (implied_prob_above_spec erf iso 100 150 "1970-02-06T12:00:00Z" 0 1) as S.
  destruct S as [_ S]. destruct (S 3153600 Ep H1 H2 H3) as (_ & _ & S').
  exact (proj1 (S' H4 H5 H6 H7)).
Defined.

End HedgeProbProofs.

Module PricingExtraProofs.
Import Pricing.








End PricingExtraProofs.

Module HedgeIndexProofs.
Import Hedge.

Lemma build_index_fold pms : forall (acc : gmap string Market) k,
  fold_left (fun idx m => <[market_id m := m]> idx) pms acc !! k =
  match last (List.filter (fun m => String.eqb (market_id m) k) pms) with
  | Some m => Some m
  | None => acc !! k
  end.
Proof.
  induction pms as [|m pms IH]; intros acc k; simpl; [reflexivity|].
  rewrite IH.
  destruct (String.eqb (market_id m) k) eqn:E.
  - apply String.eqb_eq in E. subst k.
    destruct (List.filter _ pms) as [|y l].
    + simpl. apply lookup_insert_eq.
    + change (last (m :: y :: l)) with (last (y :: l)).
      destruct (last (y :: l)) eqn:El; [reflexivity|]. apply last_None in El. discriminate.
  - destruct (last (List.filter _ pms)); [reflexivity|].
    apply lookup_insert_ne. apply String.eqb_neq in E. exact E.
Qed.

(** In the index built from hedge markets, a market id maps to the last market with that id, and is absent when there is none. *)
Theorem build_index_last (pms : list Market) (k : string) :
  build_index pms !! k = last (List.filter (fun m => String.eqb (market_id m) k) pms).
Proof.
  unfold build_index. rewrite build_index_fold.
  destruct (last _); reflexivity.
Qed.

End HedgeIndexProofs.

